(** * christmas-tree: the gesture pipeline and the morph scheduler of src/App.tsx

    [src/App.tsx] holds two versions of the page.  The development follows
    the second one (quality presets, delegate fallback, rate-limited
    inference, 9 photos); [getDistance], [detectThreeFingerPinch], the
    hand-processing body of [predictWebcam], the [lerp] calls of the three
    mesh categories and the position generators are the same text in the
    first one, whose [handlePinch] draws among 31 photos and whose [setup]
    has no fallback.

    Numbers.  A JavaScript [number] is an IEEE-754 binary64 value, which is
    what Rocq's primitive [float] is: the gesture thresholds (0.08, 0.4,
    0.01, 0.5, 0.15) are studied on these floats, with the rounding the
    code really performs.  The morph scheduler and the position generators
    are studied over the reals: their properties are limits, continuity
    and geometric bounds ("within floating tolerance"), that is, properties
    of the exact arithmetic the floating code approximates; a value drawn
    by [Math.random()] is an explicit argument in [0, 1). *)

From Stdlib Require Import Bool List String Ascii ZArith Lia DecimalString.
From Stdlib Require Import Floats.
From Stdlib Require Import Reals Lra.
Import ListNotations.

Set Warnings "-inexact-float".

(** ** Shared vocabulary *)

(** type SceneState = 'CHAOS' | 'FORMED' *)
Inductive SceneState : Type := CHAOS | FORMED.

Definition SceneState_eqb (a b : SceneState) : bool :=
  match a, b with
  | CHAOS, CHAOS | FORMED, FORMED => true
  | _, _ => false
  end.

(** ** Gesture Signal Processor *)

Module Gesture.

Local Open Scope float_scope.

(** A hand landmark, [{ x: number; y: number; z: number }]. *)
Record Landmark : Type := mkLandmark { x : float; y : float; z : float }.

(** [Math.pow(a, 2)]: the correctly rounded square (ECMAScript leaves the
    last bit of [Math.pow] to the implementation; nothing below depends
    on it). *)
Definition pow2 (a : float) : float := a * a.

(** getDistance: [Math.sqrt(pow(dx,2) + pow(dy,2) + pow(dz,2))], the sums
    associated to the left as JavaScript evaluates them. *)
Definition getDistance (p1 p2 : Landmark) : float :=
  PrimFloat.sqrt (pow2 (x p1 - x p2) + pow2 (y p1 - y p2) + pow2 (z p1 - z p2)).

Definition pinchThreshold : float := 0.08.

(** detectThreeFingerPinch.  [landmarks[k]] of an array too short is
    [undefined], and reading its [.x] throws a TypeError: [None]. *)
Definition detectThreeFingerPinch (landmarks : list Landmark) : option bool :=
  match nth_error landmarks 4, nth_error landmarks 8, nth_error landmarks 12 with
  | Some thumbTip, Some indexTip, Some middleTip =>
      let thumbToIndex := getDistance thumbTip indexTip in
      let thumbToMiddle := getDistance thumbTip middleTip in
      let indexToMiddle := getDistance indexTip middleTip in
      Some ((thumbToIndex <? pinchThreshold)
            && (thumbToMiddle <? pinchThreshold)
            && (indexToMiddle <? pinchThreshold))%bool
  | _, _, _ => None
  end.

(** The four callbacks [GestureController] receives, as the calls made on
    them. *)
Inductive Callback : Type :=
| onGesture (state : SceneState)
| onMove (speed : float)
| onStatus (status : string)
| onPinch (isPinching : bool).

(** One ranked classification, [{ categoryName, score }]. *)
Record Category : Type := mkCategory { categoryName : string; score : float }.

(** What [recognizeForVideo] returns: per hand, its landmark set and its
    ranked classifications. *)
Record Results : Type := mkResults {
  landmarks : list (list Landmark);
  gestures : list (list Category)
}.

(** *** The frame body as a small state-and-exception monad

    The body reads and writes [isPinchingRef.current], calls the callbacks
    in order, and dies with a TypeError when it reads a property of
    [undefined]; the calls made before the throw have happened. *)
Record LoopState : Type := mkLoop {
  isPinchingRef : bool;
  called : list Callback
}.

Inductive Completion (A : Type) : Type :=
| Normal (a : A) (s : LoopState)
| Throw (s : LoopState).
Arguments Normal {A} a s.
Arguments Throw {A} s.

Definition Js (A : Type) : Type := LoopState -> Completion A.

Definition ret {A} (a : A) : Js A := fun s => Normal a s.

Definition bind {A B} (m : Js A) (k : A -> Js B) : Js B :=
  fun s => match m s with
           | Normal a s' => k a s'
           | Throw s' => Throw s'
           end.

Notation "x <- m ;; k" := (bind m (fun x => k))
  (at level 61, m at next level, right associativity).
Notation "m ;; k" := (bind m (fun _ => k))
  (at level 61, right associativity).

Definition call (c : Callback) : Js unit :=
  fun s => Normal tt (mkLoop (isPinchingRef s) (called s ++ [c])).

Definition readRef : Js bool := fun s => Normal (isPinchingRef s) s.

Definition writeRef (b : bool) : Js unit :=
  fun s => Normal tt (mkLoop b (called s)).

(** A property read on a value that may be [undefined]. *)
Definition defined {A} (o : option A) : Js A :=
  fun s => match o with Some a => Normal a s | None => Throw s end.

Definition when (b : bool) (m : Js unit) : Js unit := if b then m else ret tt.

(** The three blocks of the frame body of [predictWebcam] that follow the
    pinch test, in the order of the source. *)

(** Pinch edge: compare the test with [isPinchingRef.current]. *)
Definition pinchEdge (debug isPinching : bool) : Js unit :=
  pinching <- readRef ;;
  if (isPinching && negb pinching)%bool then
    writeRef true ;;
    call (onPinch true) ;;
    when debug (call (onStatus "DETECTED: THREE FINGER PINCH"))
  else if (negb isPinching && pinching)%bool then
    writeRef false ;;
    call (onPinch false)
  else ret tt.

(** Discrete gesture: the top classification of the first hand. *)
Definition discreteGesture (debug isPinching : bool)
  (gestures : list (list Category)) : Js unit :=
  match gestures with
  | ranked :: _ =>
      top <- defined (nth_error ranked 0) ;;
      let name := categoryName top in
      let score := score top in
      if ((0.4 <? score) && negb isPinching)%bool then
        when (String.eqb name "Open_Palm") (call (onGesture CHAOS)) ;;
        when (String.eqb name "Closed_Fist") (call (onGesture FORMED)) ;;
        when debug (call (onStatus ("DETECTED: " ++ name)))
      else ret tt
  | [] => ret tt
  end.

(** Rotation: the horizontal offset of the wrist, [landmarks[0]]. *)
Definition rotation (landmarks0 : list Landmark) : Js unit :=
  wrist <- defined (nth_error landmarks0 0) ;;
  let speed := (0.5 - x wrist) * 0.15 in
  call (onMove (if 0.01 <? PrimFloat.abs speed then speed else 0)).

(** predictWebcam, on a frame on which inference runs (recognizer, video
    and canvas present, [video.videoWidth > 0], rate limiter open), from
    the classifier's [results] on; [debug] is [debugModeRef.current].  The
    canvas drawing of debug mode touches no state of the model. *)
Definition predictWebcam (debug : bool) (results : Results) : Js unit :=
  match landmarks results with
  | landmarks0 :: _ =>
      isPinching <- defined (detectThreeFingerPinch landmarks0) ;;
      pinchEdge debug isPinching ;;
      discreteGesture debug isPinching (gestures results) ;;
      rotation landmarks0
  | [] =>
      call (onMove 0) ;;
      when debug (call (onStatus "AI READY: NO HAND"))
  end.

(** One processed frame of the loop: the debug flag of the moment and the
    classifier's results. *)
Record Frame : Type := mkFrame { debug : bool; results : Results }.

(** What one frame did: the callbacks it called, in order, the value of
    [isPinchingRef.current] it left, and whether it returned (and so
    scheduled the next frame with [requestAnimationFrame]) or threw. *)
Definition frame (f : Frame) (pinching : bool) : list Callback * bool * bool :=
  match predictWebcam (debug f) (results f) (mkLoop pinching []) with
  | Normal _ s => (called s, isPinchingRef s, true)
  | Throw s => (called s, isPinchingRef s, false)
  end.

(** The loop over the processed frames: the calls of each frame.  A frame
    that throws never reaches [requestAnimationFrame]: no later frame
    runs. *)
Fixpoint loop (frames : list Frame) (pinching : bool)
  : list (list Callback) * bool :=
  match frames with
  | [] => ([], pinching)
  | f :: rest =>
      match frame f pinching with
      | (calls, pinching', true) =>
          let (later, final) := loop rest pinching' in (calls :: later, final)
      | (calls, pinching', false) => ([calls], pinching')
      end
  end.

(** The pinch test of a frame: [None] when no hand is detected. *)
Definition pinchOf (f : Frame) : option bool :=
  match landmarks (results f) with
  | landmarks0 :: _ => detectThreeFingerPinch landmarks0
  | [] => None
  end.

(** The calls of one kind among the calls of a frame. *)
Definition pinchCalls (calls : list Callback) : list bool :=
  flat_map (fun c => match c with onPinch b => [b] | _ => [] end) calls.

Definition gestureCalls (calls : list Callback) : list SceneState :=
  flat_map (fun c => match c with onGesture m => [m] | _ => [] end) calls.

Definition moveCalls (calls : list Callback) : list float :=
  flat_map (fun c => match c with onMove v => [v] | _ => [] end) calls.

(** A frame MediaPipe can produce: a detected hand has its 21 landmarks
    and every ranked list has a top entry. *)
Definition wellFormed (f : Frame) : bool :=
  match landmarks (results f) with
  | landmarks0 :: _ =>
      (Nat.eqb (List.length landmarks0) 21
       && match gestures (results f) with
          | ranked :: _ => negb (Nat.eqb (List.length ranked) 0)
          | [] => true
          end)%bool
  | [] => true
  end.

(** Test hands: 21 landmarks, the wrist at [wrist] and the three tips
    either together or spread. *)
Definition hand (wrist thumbTip indexTip middleTip : Landmark) : list Landmark :=
  let p := wrist in
  [wrist; p; p; p; thumbTip; p; p; p; indexTip; p; p; p; middleTip;
   p; p; p; p; p; p; p; p].

Definition pinchedHand (wristX : float) : list Landmark :=
  let tip := mkLandmark 0.5 0.5 0 in
  hand (mkLandmark wristX 0.5 0) tip (mkLandmark 0.51 0.5 0) (mkLandmark 0.5 0.51 0).

Definition spreadHand (wristX : float) : list Landmark :=
  hand (mkLandmark wristX 0.5 0)
       (mkLandmark 0.3 0.5 0) (mkLandmark 0.5 0.3 0) (mkLandmark 0.7 0.4 0).

(** A frame with a hand, pinched or not, and no classification. *)
Definition handFrame (isPinching : bool) : Frame :=
  mkFrame false
    (mkResults [if isPinching then pinchedHand 0.5 else spreadHand 0.5] []).

Definition noHandFrame : Frame := mkFrame false (mkResults [] []).

(** A frame with a hand and one top classification. *)
Definition classifiedFrame (isPinching : bool) (name : string) (score : float)
  : Frame :=
  mkFrame false
    (mkResults [if isPinching then pinchedHand 0.5 else spreadHand 0.5]
               [[mkCategory name score]]).

(** *** What each block is expected to call

    Written from the specification's sentences, to be compared with the
    frame body above. *)

(** Edge detection: a start on false to true, an end on true to false,
    nothing while the stored state and the test agree. *)
Definition pinchEvent (stored tested : bool) : list bool :=
  match stored, tested with
  | false, true => [true]
  | true, false => [false]
  | _, _ => []
  end.

(** The pinch events of a run of frames, frame by frame, from the tests of
    the frames ([None]: no hand, the test is not evaluated). *)
Fixpoint pinchEvents (stored : bool) (tests : list (option bool))
  : list (list bool) :=
  match tests with
  | [] => []
  | None :: rest => [] :: pinchEvents stored rest
  | Some tested :: rest => pinchEvent stored tested :: pinchEvents tested rest
  end.

(** The status line debug mode adds to a pinch start. *)
Definition pinchCallsOf (debug pinching isPinching : bool) : list Callback :=
  match pinchEvent pinching isPinching with
  | [true] =>
      onPinch true
      :: (if debug then [onStatus "DETECTED: THREE FINGER PINCH"] else [])
  | events => map onPinch events
  end.

(** The mode command of a top classification. *)
Definition modeCommand (isPinching : bool) (top : Category) : list SceneState :=
  if (negb isPinching && (0.4 <? score top))%bool then
    if String.eqb (categoryName top) "Open_Palm" then [CHAOS]
    else if String.eqb (categoryName top) "Closed_Fist" then [FORMED]
    else []
  else [].

Definition gestureCallsOf (debug isPinching : bool) (top : Category)
  : list Callback :=
  map onGesture (modeCommand isPinching top)
  ++ (if (debug && negb isPinching && (0.4 <? score top))%bool
      then [onStatus ("DETECTED: " ++ categoryName top)] else []).

(** The calls of the gesture block on the classifications of a frame. *)
Definition gestureCallsIn (debug isPinching : bool)
  (gestures : list (list Category)) : list Callback :=
  match gestures with
  | (top :: _) :: _ => gestureCallsOf debug isPinching top
  | _ => []
  end.

(** The rotation speed of a wrist. *)
Definition speedOf (wrist : Landmark) : float := (0.5 - x wrist) * 0.15.

Definition rotationOf (wrist : Landmark) : float :=
  if 0.01 <? PrimFloat.abs (speedOf wrist) then speedOf wrist else 0.

End Gesture.

(** ** Recognizer set-up: the delegate fallback of [setup] *)

Module Setup.

Local Open Scope string_scope.

(** [delegate: 'GPU' | 'CPU'] *)
Inductive Delegate : Type := GPU | CPU.

(** What an awaited external call does: it resolves, or it rejects with an
    error whose [message] is the string given (the empty string also stands
    for a missing message: both are falsy in [err.message || ...]). *)
Inductive Awaited : Type := Resolves | Rejects (message : string).

(** The environment of one run of [setup]. *)
Record World : Type := mkWorld {
  forVisionTasks : Awaited;
  createFromOptions : Delegate -> Awaited;
  mediaDevices : bool;          (* navigator.mediaDevices && ....getUserMedia *)
  getUserMedia : Awaited;
  videoMounted : bool           (* videoRef.current *)
}.

(** What a run of [setup] leaves behind. *)
Record Run : Type := mkRun {
  statuses : list string;             (* the onStatus calls, in order *)
  creations : list Delegate;          (* the createWithDelegate calls, in order *)
  gestureRecognizer : option Delegate;
  predicting : bool                   (* predictWebcam() was started *)
}.

Inductive Step (A : Type) : Type :=
| Done (a : A) (r : Run)
| Raised (message : string) (r : Run).
Arguments Done {A} a r.
Arguments Raised {A} message r.

Definition Async (A : Type) : Type := Run -> Step A.

Definition pure {A} (a : A) : Async A := fun r => Done a r.

Definition andThen {A B} (m : Async A) (k : A -> Async B) : Async B :=
  fun r => match m r with
           | Done a r' => k a r'
           | Raised e r' => Raised e r'
           end.

(** [try m catch (err) { h err }] *)
Definition tryCatch {A} (m : Async A) (h : string -> Async A) : Async A :=
  fun r => match m r with
           | Done a r' => Done a r'
           | Raised e r' => h e r'
           end.

Notation "m >> k" := (andThen m (fun _ => k))
  (at level 61, right associativity).

Definition onStatus (status : string) : Async unit :=
  fun r => Done tt (mkRun (statuses r ++ [status]) (creations r)
                          (gestureRecognizer r) (predicting r)).

Definition await (a : Awaited) : Async unit :=
  fun r => match a with Resolves => Done tt r | Rejects e => Raised e r end.

Definition throw {A} (message : string) : Async A := fun r => Raised message r.

(** createWithDelegate, followed by the assignment of its result to
    [gestureRecognizer]. *)
Definition createWithDelegate (w : World) (delegate : Delegate) : Async unit :=
  fun r =>
    let r' := mkRun (statuses r) (creations r ++ [delegate])
                    (gestureRecognizer r) (predicting r) in
    match createFromOptions w delegate with
    | Resolves =>
        Done tt (mkRun (statuses r') (creations r') (Some delegate) (predicting r'))
    | Rejects e => Raised e r'
    end.

Definition startPredicting : Async unit :=
  fun r => Done tt (mkRun (statuses r) (creations r) (gestureRecognizer r) true).

Definition gpuNotice : string := "GPU 不可用，已切换到 CPU 模式".

(** setup, for the preferred delegate of the quality preset. *)
Definition setup (preferred : Delegate) (w : World) : Async unit :=
  onStatus "DOWNLOADING AI..." >>
  tryCatch
    (await (forVisionTasks w) >>
     tryCatch
       (createWithDelegate w preferred)
       (fun err =>
          match preferred with
          | GPU => onStatus gpuNotice >> createWithDelegate w CPU
          | CPU => throw err
          end) >>
     onStatus "REQUESTING CAMERA..." >>
     if mediaDevices w then
       await (getUserMedia w) >>
       if videoMounted w then
         onStatus "AI READY: SHOW HAND" >> startPredicting
       else pure tt
     else onStatus "ERROR: CAMERA PERMISSION DENIED")
    (fun message =>
       onStatus ("ERROR: " ++ (if String.eqb message "" then "MODEL FAILED"
                               else message))).

Definition emptyRun : Run := mkRun [] [] None false.

Definition runSetup (preferred : Delegate) (w : World) : Run :=
  match setup preferred w emptyRun with
  | Done _ r => r
  | Raised _ r => r
  end.


End Setup.

(** ** App entry: the state the callbacks write *)

Module App.

Import Gesture.
Local Open Scope string_scope.

Definition TOTAL_NUMBERED_PHOTOS : nat := 8.

(** bodyPhotoPaths: ['/photos/top.jpg', '/photos/1.jpg', ..., '/photos/8.jpg'] *)
Definition bodyPhotoPaths : list string :=
  "/photos/top.jpg"
  :: map (fun i => "/photos/" ++ NilEmpty.string_of_uint (Nat.to_uint (i + 1))
                   ++ ".jpg")
         (seq 0 TOTAL_NUMBERED_PHOTOS).

(** The React state of [GrandTreeApp] that the gesture callbacks write. *)
Record State : Type := mkState {
  sceneState : SceneState;
  rotationSpeed : float;
  aiStatus : string;
  selectedPhoto : option string        (* string | null *)
}.

Definition initial : State := mkState CHAOS 0%float "INITIALIZING..." None.

Definition setSceneState (m : SceneState) (s : State) : State :=
  mkState m (rotationSpeed s) (aiStatus s) (selectedPhoto s).
Definition setRotationSpeed (v : float) (s : State) : State :=
  mkState (sceneState s) v (aiStatus s) (selectedPhoto s).
Definition setAiStatus (t : string) (s : State) : State :=
  mkState (sceneState s) (rotationSpeed s) t (selectedPhoto s).
Definition setSelectedPhoto (p : option string) (s : State) : State :=
  mkState (sceneState s) (rotationSpeed s) (aiStatus s) p.

(** JavaScript truthiness of a [string | null | undefined]. *)
Definition truthy (p : option string) : bool :=
  match p with
  | Some t => negb (String.eqb t "")
  | None => false
  end.

(** [array[i]] for an integer index: [undefined] out of range. *)
Definition at_index {A} (l : list A) (i : Z) : option A :=
  if (i <? 0)%Z then None else nth_error l (Z.to_nat i).

(** handlePinch.  [random] is the value [Math.random()] returns if it is
    called.  [selectedPhotoRef.current] is assigned [selectedPhoto] at
    every render, and a render separates two frames of the gesture loop:
    the ref read here is the state. *)
Definition handlePinch (random : R) (isPinching : bool) (s : State) : State :=
  if (isPinching && negb (truthy (selectedPhoto s)))%bool then
    let randomIndex := Int_part (random * INR (List.length bodyPhotoPaths)) in
    setSelectedPhoto (at_index bodyPhotoPaths randomIndex) s
  else if (negb isPinching && truthy (selectedPhoto s))%bool then
    setSelectedPhoto None s
  else s.

Definition closePhotoOverlay (s : State) : State := setSelectedPhoto None s.

(** The mode button: [setSceneState(s => s === 'CHAOS' ? 'FORMED' : 'CHAOS')] *)
Definition toggleScene (s : State) : State :=
  setSceneState (match sceneState s with CHAOS => FORMED | FORMED => CHAOS end) s.

(** The props of [<GestureController>]: onGesture = setSceneState,
    onMove = setRotationSpeed, onStatus = setAiStatus, onPinch = handlePinch. *)
Definition dispatch (random : R) (c : Callback) (s : State) : State :=
  match c with
  | onGesture m => setSceneState m s
  | onMove v => setRotationSpeed v s
  | onStatus t => setAiStatus t s
  | onPinch b => handlePinch random b s
  end.

Definition deliver (random : R) (calls : list Callback) (s : State) : State :=
  fold_left (fun s c => dispatch random c s) calls s.

(** The page: the pinch ref of the gesture loop, whether the loop is still
    scheduled (it is until a frame throws), and the React state. *)
Record Page : Type := mkPage { pinching : bool; running : bool; state : State }.

Definition start : Page := mkPage false true initial.

(** What happens to the page: a processed frame of the gesture loop (with
    the random draw available to it), or a click. *)
Inductive Action : Type :=
| Inference (f : Frame) (random : R)
| ClosePhoto
| ToggleScene.

Definition act (a : Action) (p : Page) : Page :=
  match a with
  | Inference f random =>
      if running p then
        match frame f (pinching p) with
        | (calls, pinching', alive) =>
            mkPage pinching' alive (deliver random calls (state p))
        end
      else p
  | ClosePhoto => mkPage (pinching p) (running p) (closePhotoOverlay (state p))
  | ToggleScene => mkPage (pinching p) (running p) (toggleScene (state p))
  end.

Definition run (actions : list Action) (p : Page) : Page :=
  fold_left (fun p a => act a p) actions p.

(** An inference on a frame without a hand. *)
Definition handless (a : Action) : Prop :=
  match a with
  | Inference f _ => landmarks (results f) = []
  | _ => False
  end.


End App.

(** ** Morph Scheduler, over the reals *)

Module Morph.

Local Open Scope R_scope.

(** THREE.Vector3 *)
Record Vector3 : Type := vec3 { x : R; y : R; z : R }.

(** Vector3.lerp(v, alpha):
    [this.x += (v.x - this.x) * alpha], and the same on y and z. *)
Definition lerp (this v : Vector3) (alpha : R) : Vector3 :=
  vec3 (x this + (x v - x this) * alpha)
       (y this + (y v - y this) * alpha)
       (z this + (z v - z this) * alpha).

(** Vector3.distanceTo *)
Definition distanceTo (a b : Vector3) : R :=
  sqrt ((x a - x b) * (x a - x b) + (y a - y b) * (y a - y b)
        + (z a - z b) * (z a - z b)).

(** MathUtils.lerp(x, y, t) = (1 - t) * x + t * y *)
Definition lerp1 (a b t : R) : R := (1 - t) * a + t * b.

(** MathUtils.damp(x, y, lambda, dt) = lerp(x, y, 1 - exp(-lambda * dt)) *)
Definition damp (a b lambda dt : R) : R := lerp1 a b (1 - exp (- lambda * dt)).

(** The part of an instance's data the scheduler reads and writes; [weight]
    is read for photo ornaments only. *)
Record Instance : Type := mkInstance {
  chaosPos : Vector3;
  targetPos : Vector3;
  currentPos : Vector3;
  weight : R
}.

Definition isFormed (state : SceneState) : bool := SceneState_eqb state FORMED.

(** [const target = isFormed ? objData.targetPos : objData.chaosPos] *)
Definition target (state : SceneState) (objData : Instance) : Vector3 :=
  if isFormed state then targetPos objData else chaosPos objData.

Definition moveTo (objData : Instance) (t : Vector3) (alpha : R) : Instance :=
  mkInstance (chaosPos objData) (targetPos objData)
             (lerp (currentPos objData) t alpha) (weight objData).

(** The three categories that carry a [currentPos]. *)
Inductive Category : Type := PhotoOrnaments | ChristmasElements | FairyLights.

(** The factor of [delta] in the category's [lerp] call:
    [delta * (isFormed ? 0.8 * objData.weight : 0.5)], [delta * 1.5],
    [delta * 2.0]. *)
Definition rate (c : Category) (state : SceneState) (objData : Instance) : R :=
  match c with
  | PhotoOrnaments => if isFormed state then 0.8 * weight objData else 0.5
  | ChristmasElements => 1.5
  | FairyLights => 2.0
  end.

(** The position update of the category's [useFrame] callback on one
    instance: [objData.currentPos.lerp(target, delta * rate)]. *)
Definition useFrame (c : Category) (state : SceneState) (delta : R)
  (objData : Instance) : Instance :=
  moveTo objData (target state objData) (delta * rate c state objData).

(** Foliage: the two uniforms its [useFrame] writes. *)
Record FoliageMaterial : Type := mkFoliage { uTime : R; uProgress : R }.

Definition foliageFrame (state : SceneState) (elapsedTime delta : R)
  (m : FoliageMaterial) : FoliageMaterial :=
  let targetProgress := if isFormed state then 1 else 0 in
  mkFoliage elapsedTime (damp (uProgress m) targetProgress 1.5 delta).

(** The scene the render loop animates. *)
Record Scene : Type := mkScene {
  sceneState : SceneState;
  ornaments : list Instance;
  elements : list Instance;
  lights : list Instance;
  foliage : FoliageMaterial
}.

(** A mode change: the React state is set, nothing else is touched. *)
Definition setSceneState (m : SceneState) (s : Scene) : Scene :=
  mkScene m (ornaments s) (elements s) (lights s) (foliage s).

(** One rendered frame: every [useFrame] callback runs once, on the mode of
    the moment. *)
Definition render (elapsedTime delta : R) (s : Scene) : Scene :=
  let m := sceneState s in
  mkScene m
    (map (useFrame PhotoOrnaments m delta) (ornaments s))
    (map (useFrame ChristmasElements m delta) (elements s))
    (map (useFrame FairyLights m delta) (lights s))
    (foliageFrame m elapsedTime delta (foliage s)).

(** The instances of a category in a scene. *)
Definition pool (c : Category) (s : Scene) : list Instance :=
  match c with
  | PhotoOrnaments => ornaments s
  | ChristmasElements => elements s
  | FairyLights => lights s
  end.

(** Frames at a held mode: the deltas of the successive frames. *)
Fixpoint hold (c : Category) (state : SceneState) (deltas : list R)
  (objData : Instance) : Instance :=
  match deltas with
  | [] => objData
  | delta :: rest => hold c state rest (useFrame c state delta objData)
  end.

(** Repeated [MathUtils.damp] toward [goal] at rate [lambda]. *)
Fixpoint dampTo (goal lambda : R) (deltas : list R) (progress : R) : R :=
  match deltas with
  | [] => progress
  | delta :: rest => dampTo goal lambda rest (damp progress goal lambda delta)
  end.

(** Foliage frames at a held mode; the clock adds each delta. *)
Fixpoint holdFoliage (state : SceneState) (deltas : list R)
  (m : FoliageMaterial) : FoliageMaterial :=
  match deltas with
  | [] => m
  | delta :: rest =>
      holdFoliage state rest (foliageFrame state (uTime m + delta) delta m)
  end.

(** The vertex shader of the foliage material: where a point that rests at
    [position] and aims at [aTargetPos] is drawn.
    [cubicInOut(t) = t < 0.5 ? 4 t^3 : 0.5 * pow(2 t - 2, 3) + 1],
    [noise = vec3(sin(uTime*1.5 + x), cos(uTime + y), sin(uTime*1.5 + z)) * 0.15],
    [finalPos = mix(position, aTargetPos + noise, cubicInOut(uProgress))]. *)
Definition cubicInOut (t : R) : R :=
  if Rlt_dec t 0.5 then 4 * t * t * t
  else 0.5 * ((2 * t - 2) * (2 * t - 2) * (2 * t - 2)) + 1.

Definition noise (time : R) (position : Vector3) : Vector3 :=
  vec3 (sin (time * 1.5 + x position) * 0.15)
       (cos (time + y position) * 0.15)
       (sin (time * 1.5 + z position) * 0.15).

(** GLSL [mix(a, b, t) = a * (1 - t) + b * t], componentwise. *)
Definition mix (a b : Vector3) (t : R) : Vector3 :=
  vec3 (x a * (1 - t) + x b * t) (y a * (1 - t) + y b * t)
       (z a * (1 - t) + z b * t).

Definition plus (a b : Vector3) : Vector3 :=
  vec3 (x a + x b) (y a + y b) (z a + z b).

Definition finalPos (m : FoliageMaterial) (position aTargetPos : Vector3)
  : Vector3 :=
  mix position (plus aTargetPos (noise (uTime m) position))
      (cubicInOut (uProgress m)).

(** Elapsed time of a run of frames. *)
Definition elapsed (deltas : list R) : R := fold_right Rplus 0 deltas.

End Morph.

(** ** Scene Object Pool: position generation, over the reals

    Every argument named [r], [r1], ... is the value of one [Math.random()]
    call, in the order of the calls. *)

Module Pool.

Import Morph.
Local Open Scope R_scope.

(** const TREE = { height: 22, radius: 9 } *)
Definition TREE_height : R := 22.
Definition TREE_radius : R := 9.

(** The radius of the cone at height [y]: R * (1 - (y + H/2) / H). *)
Definition coneRadius (py : R) : R :=
  TREE_radius * (1 - (py + TREE_height / 2) / TREE_height).

(** Distance from the tree axis. *)
Definition radial (p : Vector3) : R := sqrt (x p * x p + z p * z p).

(** getTreePosition *)
Definition getTreePosition (r1 r2 r3 : R) : Vector3 :=
  let h := TREE_height in
  let rBase := TREE_radius in
  let py := (r1 * h) - (h / 2) in
  let normalizedY := (py + (h / 2)) / h in
  let currentRadius := rBase * (1 - normalizedY) in
  let theta := r2 * PI * 2 in
  let r := r3 * currentRadius in
  vec3 (r * cos theta) py (r * sin theta).

(** The chaos position of ornaments (side 70), elements and lights (side
    60): [((random-0.5)*side, (random-0.5)*side, (random-0.5)*side)]. *)
Definition chaosBox (side r1 r2 r3 : R) : Vector3 :=
  vec3 ((r1 - 0.5) * side) ((r2 - 0.5) * side) ((r3 - 0.5) * side).

(** The target position the three mesh categories share but for
    [currentRadius], which [adjust] makes of the cone radius. *)
Definition onTree (adjust : R -> R) (r4 r5 : R) : Vector3 :=
  let h := TREE_height in
  let py := (r4 * h) - (h / 2) in
  let rBase := TREE_radius in
  let currentRadius := adjust (rBase * (1 - (py + (h / 2)) / h)) in
  let theta := r5 * PI * 2 in
  vec3 (currentRadius * cos theta) py (currentRadius * sin theta).

(** PhotoOrnaments: [currentRadius = (...) + 0.5]; the weight is drawn
    later, [0.8 + Math.random() * 1.2]. *)
Definition ornament (r1 r2 r3 r4 r5 rw : R) : Instance :=
  let chaos := chaosBox 70 r1 r2 r3 in
  mkInstance chaos (onTree (fun c => c + 0.5) r4 r5) chaos (0.8 + rw * 1.2).

(** ChristmasElements: [currentRadius = (...) * 0.95] *)
Definition element (r1 r2 r3 r4 r5 : R) : Instance :=
  let chaos := chaosBox 60 r1 r2 r3 in
  mkInstance chaos (onTree (fun c => c * 0.95) r4 r5) chaos 0.

(** FairyLights: [currentRadius = (...) + 0.3] *)
Definition light (r1 r2 r3 r4 r5 : R) : Instance :=
  let chaos := chaosBox 60 r1 r2 r3 in
  mkInstance chaos (onTree (fun c => c + 0.3) r4 r5) chaos 0.

(** Foliage: point [i] rests at the point [i] of [random.inSphere(...,
    { radius: 25 })] (an external generator, taken as given) and aims at a
    [getTreePosition()]. *)
Definition foliagePoint (spherePoint : Vector3) (r1 r2 r3 : R)
  : Vector3 * Vector3 :=
  (spherePoint, getTreePosition r1 r2 r3).

(** A draw of [Math.random()]. *)
Definition draw (r : R) : Prop := 0 <= r < 1.

(** Inside the cone of the tree, as the specification writes it:
    sqrt(x^2 + z^2) <= R * (1 - (y + H/2) / H). *)
Definition inCone (p : Vector3) : Prop := radial p <= coneRadius (y p).

End Pool.
(** ** More of the gesture loop: what a frame leaves, and when it throws *)

Module Frames.

Import Gesture.
Local Open Scope float_scope.

(** The calls of a frame other than the status lines. *)
Definition commands (calls : list Callback) : list Callback :=
  filter (fun c => match c with onStatus _ => false | _ => true end) calls.

(** The frames whose body runs to its end: no hand, or a hand with the
    landmarks 4, 8 and 12 (13 entries at least) whose first ranked list,
    if there is one, is not empty. *)
Definition survives (f : Frame) : bool :=
  match landmarks (results f) with
  | landmarks0 :: _ =>
      (Nat.ltb 12 (List.length landmarks0)
       && match gestures (results f) with
          | [] :: _ => false
          | _ => true
          end)%bool
  | [] => true
  end.

(** Starts and ends in turn: the next event expected is [next]. *)
Fixpoint alternates (next : bool) (events : list bool) : bool :=
  match events with
  | [] => true
  | e :: rest => (Bool.eqb e next && alternates (negb next) rest)%bool
  end.

(** Whether the hand of a frame steers the rotation: a wrist whose speed
    is outside the dead zone. *)
Definition steers (f : Frame) : bool :=
  match landmarks (results f) with
  | (wrist :: _) :: _ => 0.01 <? PrimFloat.abs (speedOf wrist)
  | _ => false
  end.

(** The four kinds of frame, with what a frame of each kind does to the
    stored pinch state [pinching]. *)
Inductive FrameKind (f : Frame) (pinching : bool) : Prop :=
| NoHand
    (E : landmarks (results f) = [])
    (R : frame f pinching
         = (onMove 0 :: (if debug f then [onStatus "AI READY: NO HAND"] else []),
            pinching, true))
    (S : survives f = true)
| ShortHand (l0 : list Landmark) (more : list (list Landmark))
    (E : landmarks (results f) = l0 :: more)
    (P : pinchOf f = None)
    (R : frame f pinching = ([], pinching, false))
    (S : survives f = false)
| NoTop (b : bool)
    (P : pinchOf f = Some b)
    (R : frame f pinching = (pinchCallsOf (debug f) pinching b, b, false))
    (S : survives f = false)
| Whole (b : bool) (wrist : Landmark) (rest : list Landmark)
    (more : list (list Landmark))
    (E : landmarks (results f) = (wrist :: rest) :: more)
    (P : pinchOf f = Some b)
    (R : frame f pinching
         = (pinchCallsOf (debug f) pinching b
              ++ gestureCallsIn (debug f) b (gestures (results f))
              ++ [onMove (rotationOf wrist)], b, true))
    (S : survives f = true).

(** The mode command of a frame, if its body reaches the gesture block
    with a top classification. *)
Definition commandOf (f : Frame) : list SceneState :=
  match pinchOf f, gestures (results f) with
  | Some b, (top :: _) :: _ => modeCommand b top
  | _, _ => []
  end.

End Frames.

(** ** More of the page: auto-rotation and the photo a pinch leaves *)

Module Pages.

Import Gesture App.

(** Experience: [autoRotate={rotationSpeed === 0 && sceneState === 'FORMED'}] *)
Definition autoRotate (s : State) : bool :=
  ((rotationSpeed s =? 0)%float && SceneState_eqb (sceneState s) FORMED)%bool.

(** A hand that keeps pinching, or no hand at all. *)
Definition holding (a : Action) : Prop :=
  match a with
  | Inference f _ => wellFormed f = true /\ pinchOf f <> Some false
  | _ => False
  end.

(** What holds of the page at all times: a photo is shown only while the
    stored pinch state is true, and it is one of the configured photos. *)
Definition settled (p : Page) : Prop :=
  (truthy (selectedPhoto (state p)) = true -> pinching p = true)
  /\ (forall photo : string,
         selectedPhoto (state p) = Some photo -> In photo bodyPhotoPaths).

End Pages.

(** ** The inference rate limiter of [predictWebcam] *)

Module Limiter.

Local Open Scope float_scope.

(** One call of [predictWebcam] by [requestAnimationFrame]: whether the
    recognizer, the video and the canvas are there, the clock, the frame
    rate of the preset, the size of the video, and debug drawing. *)
Record Tick : Type := mkTick {
  mounted : bool;        (* gestureRecognizer && video && canvas *)
  nowMs : float;         (* Date.now() *)
  maxFps : float;        (* perfRef.current.mediapipe.maxFps *)
  videoWidth : float;
  videoHeight : float;
  debug : bool;          (* debugModeRef.current *)
  context2d : bool       (* canvas.getContext("2d") is not null *)
}.

(** The variables of the effect the limiter reads and writes, and the
    size of the canvas. *)
Record Timer : Type := mkTimer {
  lastInferenceMs : float;
  lastVideoWidth : float;
  lastVideoHeight : float;
  drawingUtils : bool;   (* drawingUtils is not null *)
  canvasWidth : float;
  canvasHeight : float
}.

(** [let lastInferenceMs = 0; let lastVideoWidth = 0; ...]; a canvas
    element is 300 by 150 until it is sized. *)
Definition initialTimer : Timer := mkTimer 0 0 0 false 300 150.

(** [targetFps > 0 ? 1000 / targetFps : 1000 / 15] *)
Definition intervalMs (targetFps : float) : float :=
  if 0 <? targetFps then 1000 / targetFps else 1000 / 15.

(** [nowMs - lastInferenceMs >= intervalMs] *)
Definition shouldInfer (t : Tick) (c : Timer) : bool :=
  intervalMs (maxFps t) <=? nowMs t - lastInferenceMs c.

(** Whether the call runs the classifier:
    mounted, [video.videoWidth > 0 && shouldInfer]. *)
Definition infers (t : Tick) (c : Timer) : bool :=
  (mounted t && ((0 <? videoWidth t) && shouldInfer t c))%bool.

(** [a !== b] on numbers. *)
Definition differs (a b : float) : bool := negb (a =? b).

(** The state the call leaves. *)
Definition tick (t : Tick) (c : Timer) : Timer :=
  if infers t c then
    let c1 :=
      if (differs (videoWidth t) (lastVideoWidth c)
          || differs (videoHeight t) (lastVideoHeight c))%bool
      then mkTimer (nowMs t) (videoWidth t) (videoHeight t) false
                   (videoWidth t) (videoHeight t)
      else mkTimer (nowMs t) (lastVideoWidth c) (lastVideoHeight c)
                   (drawingUtils c) (canvasWidth c) (canvasHeight c) in
    if (debug t && context2d t)%bool
    then mkTimer (lastInferenceMs c1) (lastVideoWidth c1) (lastVideoHeight c1)
                 true (canvasWidth c1) (canvasHeight c1)
    else c1
  else c.

(** The clock values at which a run of calls runs the classifier. *)
Fixpoint inferenceTimes (ticks : list Tick) (c : Timer) : list float :=
  match ticks with
  | [] => []
  | t :: rest =>
      if infers t c then nowMs t :: inferenceTimes rest (tick t c)
      else inferenceTimes rest (tick t c)
  end.

Definition runTicks (ticks : list Tick) (c : Timer) : Timer :=
  fold_left (fun c t => tick t c) ticks c.

(** Each time is at least [interval] after the one before, by the
    comparison the code makes. *)
Fixpoint spaced (interval previous : float) (times : list float) : bool :=
  match times with
  | [] => true
  | t :: rest => ((interval <=? t - previous) && spaced interval t rest)%bool
  end.

End Limiter.

(** ** Quality preset: detection and persistence *)

Module Quality.

Local Open Scope string_scope.

(** type QualityPreset = 'HIGH' | 'LOW' *)
Inductive QualityPreset : Type := HIGH | LOW.

Definition QUALITY_STORAGE_KEY : string := "christmas-tree:quality".

(** The string of a preset, as [localStorage] holds it. *)
Definition presetName (q : QualityPreset) : string :=
  match q with HIGH => "HIGH" | LOW => "LOW" end.

(** What [navigator] reports; each may be [undefined]. *)
Record Navigator : Type := mkNavigator {
  deviceMemory : option float;
  hardwareConcurrency : option float
}.

(** detectDefaultQuality; [None] when it throws ([navigator] missing). *)
Definition detectDefaultQuality (navigator : option Navigator)
  : option QualityPreset :=
  match navigator with
  | None => None
  | Some n =>
      let cores := match hardwareConcurrency n with
                   | Some c => c
                   | None => 8%float
                   end in
      Some (if (match deviceMemory n with
                | Some mem => (mem <=? 4)%float
                | None => false
                end || (cores <=? 4)%float)%bool
            then LOW else HIGH)
  end.

(** [localStorage]: its items, whether it can be reached at all (reading
    or writing throws otherwise) and whether it refuses a write. *)
Record Storage : Type := mkStorage {
  accessible : bool;
  full : bool;
  items : list (string * string)
}.

Fixpoint lookup (key : string) (l : list (string * string)) : option string :=
  match l with
  | [] => None
  | (k, v) :: rest => if String.eqb k key then Some v else lookup key rest
  end.

(** [localStorage.getItem(key)]: [None] when it throws, [Some None] for
    [null]. *)
Definition getItem (key : string) (s : Storage) : option (option string) :=
  if accessible s then Some (lookup key (items s)) else None.

(** [localStorage.setItem(key, value)]: [None] when it throws. *)
Definition setItem (key value : string) (s : Storage) : option Storage :=
  if (accessible s && negb (full s))%bool then
    Some (mkStorage (accessible s) (full s)
            ((key, value)
             :: filter (fun kv => negb (String.eqb (fst kv) key)) (items s)))
  else None.

(** The initial value of the [quality] state. *)
Definition initialQuality (s : Storage) (navigator : option Navigator)
  : QualityPreset :=
  let stored :=
    match getItem QUALITY_STORAGE_KEY s with
    | Some (Some v) =>
        if String.eqb v "HIGH" then Some HIGH
        else if String.eqb v "LOW" then Some LOW
        else None
    | _ => None
    end in
  match stored with
  | Some q => q
  | None =>
      match detectDefaultQuality navigator with
      | Some q => q
      | None => HIGH
      end
  end.

(** The effect on [quality]: [try { setItem(KEY, quality) } catch {}]. *)
Definition persist (q : QualityPreset) (s : Storage) : Storage :=
  match setItem QUALITY_STORAGE_KEY (presetName q) s with
  | Some s' => s'
  | None => s
  end.

(** The quality button: [q === 'HIGH' ? 'LOW' : 'HIGH']. *)
Definition toggle (q : QualityPreset) : QualityPreset :=
  match q with HIGH => LOW | LOW => HIGH end.

(** One session: the page starts, the user clicks the quality button some
    times, each render persists the quality. *)
Fixpoint session (clicks : nat) (q : QualityPreset) (s : Storage)
  : QualityPreset * Storage :=
  match clicks with
  | O => (q, persist q s)
  | S n => session n (toggle q) (persist q s)
  end.

End Quality.

(** ** More of the morph scheduler: cross-fade, star, runs of frames *)

Module Visuals.

Import Morph.
Local Open Scope R_scope.

(** PhotoOrnaments, the update of [morphProgressRef.current[i]]:
    [MathUtils.damp(morph, isFormed ? 1 : 0, 2.0, delta)]. *)
Definition morphFrame (state : SceneState) (delta morph : R) : R :=
  let targetMorph := if isFormed state then 1 else 0 in
  let morphSpeed := 2.0 in
  damp morph targetMorph morphSpeed delta.

(** What the frame then shows of an ornament at progress [morph]. *)
Definition photoScale (morph : R) : R := 1 - morph * 0.8.
Definition photoOpacity (morph : R) : R := 1 - morph.
(** [Math.max(0.01, glowScale)] *)
Definition glowScale (morph : R) : R := Rmax 0.01 (morph * 0.6).
Definition glowOpacity (morph : R) : R := morph * 0.85.
Definition pulse (time pulseSpeed pulseOffset : R) : R :=
  (sin (time * pulseSpeed + pulseOffset) + 1) / 2.
Definition glowEmissive (morph time pulseSpeed pulseOffset : R) : R :=
  morph * (0.8 + pulse time pulseSpeed pulseOffset * 1.2).

(** A run of rendered frames: the mode and the delta of each. *)
Fixpoint morphRun (frames : list (SceneState * R)) (morph : R) : R :=
  match frames with
  | [] => morph
  | (state, delta) :: rest => morphRun rest (morphFrame state delta morph)
  end.

Fixpoint foliageRun (frames : list (SceneState * R)) (m : FoliageMaterial)
  : FoliageMaterial :=
  match frames with
  | [] => m
  | (state, delta) :: rest =>
      foliageRun rest (foliageFrame state (uTime m + delta) delta m)
  end.

(** TopStar: the rotation about y and the scale of its group. *)
Record Star : Type := mkStar { rotationY : R; scale : Vector3 }.

(** [rotation.y += delta * 0.5;
     scale.lerp(new Vector3(targetScale, targetScale, targetScale), delta * 3)] *)
Definition starFrame (state : SceneState) (delta : R) (s : Star) : Star :=
  let targetScale := if isFormed state then 1 else 0 in
  mkStar (rotationY s + delta * 0.5)
         (lerp (scale s) (vec3 targetScale targetScale targetScale) (delta * 3)).

Fixpoint starRun (frames : list (SceneState * R)) (s : Star) : Star :=
  match frames with
  | [] => s
  | (state, delta) :: rest => starRun rest (starFrame state delta s)
  end.

(** A group starts with scale (1, 1, 1) and no rotation. *)
Definition initialStar : Star := mkStar 0 (vec3 1 1 1).

(** An instance the pool can generate for a category, from some draws. *)
Definition generated (c : Category) (o : Instance) : Prop :=
  match c with
  | PhotoOrnaments =>
      exists r1 r2 r3 r4 r5 rw,
        Pool.draw r4 /\ Pool.draw rw /\ o = Pool.ornament r1 r2 r3 r4 r5 rw
  | ChristmasElements =>
      exists r1 r2 r3 r4 r5, Pool.draw r4 /\ o = Pool.element r1 r2 r3 r4 r5
  | FairyLights =>
      exists r1 r2 r3 r4 r5, Pool.draw r4 /\ o = Pool.light r1 r2 r3 r4 r5
  end.

End Visuals.

(** ** The buffers of the foliage and the photos of the ornaments *)

Module Buffers.

Import Morph Pool.
Local Open Scope R_scope.

(** [a[i] = v] on a typed array: a write out of range is ignored. *)
Fixpoint store {A} (i : nat) (v : A) (a : list A) : list A :=
  match a, i with
  | [], _ => []
  | _ :: rest, O => v :: rest
  | h :: rest, S j => h :: store j v rest
  end.

(** The three arrays [Foliage] fills. *)
Record FoliageArrays : Type := mkArrays {
  positions : list R;
  targetPositions : list R;
  randoms : list R
}.

(** The draws of one turn of the loop: three in [getTreePosition()], one
    for [randoms[i]]. *)
Definition Draws : Type := (R * R * R * R)%type.

(** The body of [for (let i = 0; i < count; i++)]. *)
Definition foliageStep (spherePoints : list R) (i : nat) (d : Draws)
  (a : FoliageArrays) : FoliageArrays :=
  let '(r1, r2, r3, r4) := d in
  let t := getTreePosition r1 r2 r3 in
  mkArrays
    (store (i * 3 + 2) (nth (i * 3 + 2) spherePoints 0)
       (store (i * 3 + 1) (nth (i * 3 + 1) spherePoints 0)
          (store (i * 3) (nth (i * 3) spherePoints 0) (positions a))))
    (store (i * 3 + 2) (z t)
       (store (i * 3 + 1) (y t) (store (i * 3) (x t) (targetPositions a))))
    (store i r4 (randoms a)).

(** The loop from turn [i], one turn for each remaining draw. *)
Fixpoint foliageLoop (spherePoints : list R) (i : nat) (draws : list Draws)
  (a : FoliageArrays) : FoliageArrays :=
  match draws with
  | [] => a
  | d :: rest =>
      foliageLoop spherePoints (S i) rest (foliageStep spherePoints i d a)
  end.

(** The arrays of a foliage of [count] points: [new Float32Array(count*3)]
    twice and [new Float32Array(count)], zero-filled, then the loop;
    [draws] are the draws of its [count] turns. *)
Definition foliageArrays (count : nat) (spherePoints : list R)
  (draws : list Draws) : FoliageArrays :=
  foliageLoop spherePoints 0 draws
    (mkArrays (repeat 0 (count * 3)) (repeat 0 (count * 3)) (repeat 0 count)).

(** The point [i] of an array of coordinates. *)
Definition pointAt (a : list R) (i : nat) : Vector3 :=
  vec3 (nth (i * 3) a 0) (nth (i * 3 + 1) a 0) (nth (i * 3 + 2) a 0).

(** PhotoOrnaments: [textureIndex: i % textures.length]; with no texture
    the remainder is NaN and indexes nothing: [None]. *)
Definition textureIndex (textures i : nat) : option nat :=
  if Nat.eqb textures 0 then None else Some (Nat.modulo i textures).

(** The texture indices of the [count] ornaments,
    [new Array(count).fill(0).map((_, i) => ...)]. *)
Definition textureIndices (count textures : nat) : list (option nat) :=
  map (textureIndex textures) (seq 0 count).

(** How many of the ornaments show the photo [j]. *)
Definition shownOn (count textures j : nat) : nat :=
  List.length
    (filter (fun o => match o with Some t => Nat.eqb t j | None => false end)
            (textureIndices count textures)).

End Buffers.

(** * Properties

    ** Comparison of binary64 values

    The facts about floats the development needs beyond evaluation: [<?]
    is asymmetric, and two numbers that are neither equal nor in the order
    [a < b] are in the order [b < a].  They come from the specification of
    the primitive comparisons ([ltb_spec], [eqb_spec]) and the definition
    of [SFcompare]. *)

Module FloatOrder.

Lemma SFcompare_swap (a b : spec_float) :
  SFcompare b a = match SFcompare a b with
                  | Some c => Some (CompOpp c)
                  | None => None
                  end.
Proof.
  destruct a as [sa| sa| |sa ma ea], b as [sb| sb| |sb mb eb]; simpl;
    try reflexivity;
    try (destruct sa; reflexivity);
    try (destruct sb; reflexivity);
    try (destruct sa, sb; reflexivity).
  destruct sa, sb; try reflexivity;
    rewrite (Z.compare_antisym ea eb);
    destruct (ea ?= eb)%Z; simpl; try reflexivity;
    change (Pos.compare_cont Eq mb ma)
      with (Pos.compare_cont (CompOpp Eq) mb ma);
    rewrite <- (Pos.compare_cont_antisym ma mb Eq);
    destruct (Pos.compare_cont Eq ma mb); reflexivity.
Qed.

Lemma SFcompare_nan (a b : spec_float) :
  SFcompare a b = None -> SFeqb a a = false \/ SFeqb b b = false.
Proof.
  destruct a as [sa| sa| |sa ma ea], b as [sb| sb| |sb mb eb]; simpl;
    try discriminate; try (intros _; left; reflexivity);
    try (intros _; right; reflexivity);
    try (destruct sa; discriminate); try (destruct sb; discriminate).
Qed.

Lemma ltb_asym (a b : float) :
  (a <? b)%float = true -> (b <? a)%float = false.
Proof.
  rewrite !ltb_spec. unfold SFltb.
  rewrite (SFcompare_swap (Prim2SF a) (Prim2SF b)).
  destruct (SFcompare (Prim2SF a) (Prim2SF b)) as [[ | | ]|];
    simpl; intros H; first [discriminate | reflexivity].
Qed.

Lemma ltb_total (a b : float) :
  (a =? a)%float = true -> (b =? b)%float = true ->
  (a <? b)%float = false -> (a =? b)%float = false ->
  (b <? a)%float = true.
Proof.
  rewrite !ltb_spec, !eqb_spec. unfold SFltb at 1 2, SFeqb at 3.
  rewrite (SFcompare_swap (Prim2SF a) (Prim2SF b)).
  intros Ha Hb.
  destruct (SFcompare (Prim2SF a) (Prim2SF b)) as [[ | | ]|] eqn:E;
    simpl; intros H1 H2; try discriminate; try reflexivity.
  destruct (SFcompare_nan _ _ E); congruence.
Qed.

Lemma eqb_not_ltb (a b : float) :
  (a =? b)%float = true -> (b <? a)%float = false.
Proof.
  rewrite ltb_spec, eqb_spec. unfold SFltb, SFeqb.
  rewrite (SFcompare_swap (Prim2SF a) (Prim2SF b)).
  destruct (SFcompare (Prim2SF a) (Prim2SF b)) as [[ | | ]|];
    simpl; intros H; first [discriminate | reflexivity].
Qed.

End FloatOrder.

(** ** The frame body, block by block *)

Section FrameBody.

Import Gesture.
Local Open Scope float_scope.

Ltac js_run :=
  unfold bind, call, when, writeRef, readRef, ret, defined;
  cbn [isPinchingRef called andb negb map pinchEvent];
  rewrite <- ?app_assoc, ?app_nil_r; cbn [app].

Lemma detect_defined (l : list Landmark) :
  List.length l = 21%nat -> exists b, detectThreeFingerPinch l = Some b.
Proof.
  intros H. unfold detectThreeFingerPinch.
  destruct (nth_error l 4) eqn:E4; [|apply nth_error_None in E4; lia].
  destruct (nth_error l 8) eqn:E8; [|apply nth_error_None in E8; lia].
  destruct (nth_error l 12) eqn:E12; [|apply nth_error_None in E12; lia].
  eexists; reflexivity.
Qed.

Lemma pinchEdge_runs (dbg isPinching : bool) (s : LoopState) :
  pinchEdge dbg isPinching s =
  Normal tt (mkLoop isPinching
                    (called s ++ pinchCallsOf dbg (isPinchingRef s) isPinching)).
Proof.
  destruct s as [r cs]. unfold pinchEdge, pinchCallsOf.
  destruct isPinching, r, dbg; js_run; reflexivity.
Qed.

Lemma discreteGesture_none (dbg isPinching : bool) (s : LoopState) :
  discreteGesture dbg isPinching [] s = Normal tt s.
Proof. reflexivity. Qed.

Lemma discreteGesture_runs (dbg isPinching : bool) (top : Category)
  (lower : list Category) (others : list (list Category)) (s : LoopState) :
  discreteGesture dbg isPinching ((top :: lower) :: others) s =
  Normal tt (mkLoop (isPinchingRef s)
                    (called s ++ gestureCallsOf dbg isPinching top)).
Proof.
  destruct s as [r cs]. unfold discreteGesture, gestureCallsOf, modeCommand.
  cbn [nth_error]. js_run. cbv zeta.
  destruct (0.4 <? score top), isPinching;
    destruct (String.eqb (categoryName top) "Open_Palm") eqn:Eo;
    destruct (String.eqb (categoryName top) "Closed_Fist") eqn:Ec;
    destruct dbg; js_run; try reflexivity.
  all: apply String.eqb_eq in Eo; apply String.eqb_eq in Ec; congruence.
Qed.

Lemma rotation_runs (wrist : Landmark) (rest : list Landmark) (s : LoopState) :
  rotation (wrist :: rest) s =
  Normal tt (mkLoop (isPinchingRef s) (called s ++ [onMove (rotationOf wrist)])).
Proof. destruct s; reflexivity. Qed.

(** A frame with a hand whose classifications, if any, have a top entry. *)
Lemma frame_hand (dbg : bool) (wrist : Landmark) (rest : list Landmark)
  (more : list (list Landmark)) (gs : list (list Category))
  (pinching b : bool) :
  detectThreeFingerPinch (wrist :: rest) = Some b ->
  (match gs with [] :: _ => false | _ => true end) = true ->
  frame (mkFrame dbg (mkResults ((wrist :: rest) :: more) gs)) pinching =
  (pinchCallsOf dbg pinching b ++ gestureCallsIn dbg b gs
     ++ [onMove (rotationOf wrist)], b, true).
Proof.
  intros Hd Hg. unfold frame, predictWebcam.
  cbn [debug results landmarks gestures].
  unfold bind at 1. rewrite Hd. cbn [defined].
  unfold bind at 1. rewrite pinchEdge_runs. cbn [isPinchingRef called app].
  unfold bind at 1.
  destruct gs as [|[|top lower] others]; try discriminate.
  - rewrite discreteGesture_none, rotation_runs. cbn. reflexivity.
  - rewrite discreteGesture_runs, rotation_runs. cbn [isPinchingRef called].
    rewrite <- app_assoc. reflexivity.
Qed.

(** A frame without a hand. *)
Lemma frame_no_hand (dbg : bool) (gs : list (list Category)) (pinching : bool) :
  frame (mkFrame dbg (mkResults [] gs)) pinching =
  (onMove 0 :: (if dbg then [onStatus "AI READY: NO HAND"] else []),
   pinching, true).
Proof. destruct dbg; reflexivity. Qed.

(** The calls of each kind in the calls of the blocks. *)
Lemma pinchCalls_app (a b : list Callback) :
  pinchCalls (a ++ b) = pinchCalls a ++ pinchCalls b.
Proof. apply flat_map_app. Qed.

Lemma gestureCalls_app (a b : list Callback) :
  gestureCalls (a ++ b) = gestureCalls a ++ gestureCalls b.
Proof. apply flat_map_app. Qed.

Lemma moveCalls_app (a b : list Callback) :
  moveCalls (a ++ b) = moveCalls a ++ moveCalls b.
Proof. apply flat_map_app. Qed.

Lemma pinchCallsOf_pinch (dbg pinching b : bool) :
  pinchCalls (pinchCallsOf dbg pinching b) = pinchEvent pinching b.
Proof. destruct dbg, pinching, b; reflexivity. Qed.

Lemma pinchCallsOf_gesture (dbg pinching b : bool) :
  gestureCalls (pinchCallsOf dbg pinching b) = [].
Proof. destruct dbg, pinching, b; reflexivity. Qed.

Lemma pinchCallsOf_move (dbg pinching b : bool) :
  moveCalls (pinchCallsOf dbg pinching b) = [].
Proof. destruct dbg, pinching, b; reflexivity. Qed.

Lemma gestureCallsOf_gesture (dbg b : bool) (top : Category) :
  gestureCalls (gestureCallsOf dbg b top) = modeCommand b top.
Proof.
  unfold gestureCallsOf, modeCommand. rewrite gestureCalls_app.
  destruct dbg, b, (0.4 <? score top); cbn [andb negb];
    destruct (String.eqb (categoryName top) "Open_Palm");
    destruct (String.eqb (categoryName top) "Closed_Fist"); reflexivity.
Qed.

Lemma gestureCallsIn_pinch (dbg b : bool) (gs : list (list Category)) :
  pinchCalls (gestureCallsIn dbg b gs) = [].
Proof.
  destruct gs as [|[|top lower] others]; try reflexivity.
  unfold gestureCallsIn, gestureCallsOf, modeCommand.
  destruct dbg, b, (0.4 <? score top); cbn [andb negb];
    destruct (String.eqb (categoryName top) "Open_Palm");
    destruct (String.eqb (categoryName top) "Closed_Fist"); reflexivity.
Qed.

Lemma gestureCallsIn_move (dbg b : bool) (gs : list (list Category)) :
  moveCalls (gestureCallsIn dbg b gs) = [].
Proof.
  destruct gs as [|[|top lower] others]; try reflexivity.
  unfold gestureCallsIn, gestureCallsOf, modeCommand.
  destruct dbg, b, (0.4 <? score top); cbn [andb negb];
    destruct (String.eqb (categoryName top) "Open_Palm");
    destruct (String.eqb (categoryName top) "Closed_Fist"); reflexivity.
Qed.

(** What a well-formed frame does to the pinch state, and the pinch events
    it emits. *)
Lemma frame_wellFormed (f : Frame) (pinching : bool) :
  wellFormed f = true ->
  exists calls,
    frame f pinching =
      (calls, match pinchOf f with Some b => b | None => pinching end, true)
    /\ pinchCalls calls =
       match pinchOf f with Some b => pinchEvent pinching b | None => [] end.
Proof.
  destruct f as [dbg [[|l0 more] gs]]; unfold wellFormed, pinchOf;
    cbn [results landmarks gestures].
  - intros _. rewrite frame_no_hand. eexists; split; [reflexivity|].
    destruct dbg; reflexivity.
  - intros H. apply andb_prop in H as [Hl Hg]. apply Nat.eqb_eq in Hl.
    destruct (detect_defined l0 Hl) as [b Hb]. rewrite Hb.
    destruct l0 as [|wrist rest]; [discriminate|].
    rewrite (frame_hand dbg wrist rest more gs pinching b Hb).
    + eexists; split; [reflexivity|].
      rewrite !pinchCalls_app, pinchCallsOf_pinch, gestureCallsIn_pinch.
      cbn. now rewrite app_nil_r.
    + destruct gs as [|[|top lower] others]; try reflexivity. discriminate.
Qed.

End FrameBody.

(** ** Pinch edge detection *)

Section PinchEdges.

Import Gesture.
Local Open Scope float_scope.

Lemma loop_pinch_events (frames : list Frame) (stored : bool) :
  Forall (fun f => wellFormed f = true) frames ->
  map pinchCalls (fst (loop frames stored))
  = pinchEvents stored (map pinchOf frames)
  /\ List.length (fst (loop frames stored)) = List.length frames.
Proof.
  intros H. revert stored. induction H as [|f rest Hf _ IH]; intros stored.
  - split; reflexivity.
  - destruct (frame_wellFormed f stored Hf) as [calls [Hfr Hcalls]].
    cbn [loop map]. rewrite Hfr.
    destruct (pinchOf f) as [b|].
    + destruct (IH b) as [IH1 IH2].
      destruct (loop rest b) as [later final]. cbn [fst map List.length] in *.
      rewrite Hcalls, IH1, IH2. split; reflexivity.
    + destruct (IH stored) as [IH1 IH2].
      destruct (loop rest stored) as [later final]. cbn [fst map List.length] in *.
      rewrite Hcalls, IH1, IH2. split; reflexivity.
Qed.

Lemma handFrame_wellFormed (b : bool) : wellFormed (handFrame b) = true.
Proof. destruct b; reflexivity. Qed.

Lemma handFrame_pinchOf (b : bool) : pinchOf (handFrame b) = Some b.
Proof. destruct b; vm_compute; reflexivity. Qed.

(** C1.  Pinch edge detection is exactly-once per transition.  Over every
    run of well-formed processed frames, from any stored PinchState, the
    [onPinch] calls of each frame are those of the edge between the stored
    state and the frame's pinch test: [onPinch(true)] exactly on false to
    true, [onPinch(false)] exactly on true to false, none when the test
    equals the stored state (and none on a frame without a hand, where the
    test is not evaluated); every frame is processed.  Every sequence of
    booleans is the sequence of tests of some frames, and the tests
    [F,F,T,T,T,F,F] give one start at index 2 and one end at index 5. *)
Theorem pinch_edge_detection :
  (forall (frames : list Frame) (stored : bool),
      Forall (fun f => wellFormed f = true) frames ->
      map pinchCalls (fst (loop frames stored))
      = pinchEvents stored (map pinchOf frames)
      /\ List.length (fst (loop frames stored)) = List.length frames)
  /\ (forall (tests : list bool) (stored : bool),
         map pinchCalls (fst (loop (map handFrame tests) stored))
         = pinchEvents stored (map Some tests))
  /\ (forall stored tested : bool,
         (pinchEvent stored tested = [true] <-> stored = false /\ tested = true)
         /\ (pinchEvent stored tested = [false] <-> stored = true /\ tested = false)
         /\ (stored = tested -> pinchEvent stored tested = []))
  /\ map pinchCalls
       (fst (loop (map handFrame [false; false; true; true; true; false; false])
                  false))
     = [[]; []; [true]; []; []; [false]; []].
Proof.
  split; [exact loop_pinch_events|].
  split.
  - intros tests stored.
    destruct (loop_pinch_events (map handFrame tests) stored) as [H _].
    + apply Forall_forall. intros f Hf. apply in_map_iff in Hf as [b [<- _]].
      apply handFrame_wellFormed.
    + rewrite H, map_map. f_equal. apply map_ext. exact handFrame_pinchOf.
  - split.
    + intros [|] [|]; cbn; repeat split; intros; try discriminate;
        try tauto; try (destruct H; discriminate).
    + vm_compute. reflexivity.
Qed.

(** The frames of the test run are well formed and the run is the one the
    edge function predicts. *)
Lemma pinch_edge_detection_witness :
  Forall (fun f => wellFormed f = true)
         (map handFrame [false; false; true; true; true; false; false])
  /\ map pinchCalls
       (fst (loop (map handFrame [false; false; true; true; true; false; false])
                  false))
     = pinchEvents false
         (map pinchOf (map handFrame [false; false; true; true; true; false; false])).
Proof.
  assert (H : Forall (fun f => wellFormed f = true)
                (map handFrame [false; false; true; true; true; false; false])).
  { repeat constructor. }
  split; [exact H|].
  exact (proj1 (proj1 pinch_edge_detection _ false H)).
Defined.

End PinchEdges.

(** ** The pinch test *)

Section PinchTest.

Import Gesture.
Local Open Scope float_scope.



End PinchTest.

(** ** Discrete gestures and rotation *)

Section GestureCommands.

Import Gesture.
Local Open Scope float_scope.

Lemma frame_hand_gestures (dbg : bool) (wrist : Landmark)
  (rest : list Landmark) (more : list (list Landmark)) (top : Category)
  (lower : list Category) (others : list (list Category)) (pinching b : bool) :
  detectThreeFingerPinch (wrist :: rest) = Some b ->
  gestureCalls
    (fst (fst (frame (mkFrame dbg (mkResults ((wrist :: rest) :: more)
                                             ((top :: lower) :: others)))
                     pinching)))
  = modeCommand b top.
Proof.
  intros Hb.
  rewrite (frame_hand dbg wrist rest more ((top :: lower) :: others)
             pinching b Hb eq_refl).
  cbn [fst].
  rewrite !gestureCalls_app, pinchCallsOf_gesture.
  cbn [gestureCallsIn app]. rewrite gestureCallsOf_gesture.
  cbn. apply app_nil_r.
Qed.

(** C3.  Discrete gesture mapping.  On a processed frame with a detected
    hand and a top classification: with no pinch detected in the frame and
    a confidence above 0.4, label "Open_Palm" calls [onGesture("CHAOS")]
    and label "Closed_Fist" calls [onGesture("FORMED")]; any other label,
    a confidence that does not exceed 0.4, or a pinch detected in the same
    frame gives no mode command, whatever the classifier says.  With
    "Open_Palm": confidence 0.39 and 0.4 give none, 0.41 gives CHAOS. *)
Theorem discrete_gesture_mapping :
  (forall (dbg : bool) (wrist : Landmark) (rest : list Landmark)
          (more : list (list Landmark)) (top : Category)
          (lower : list Category) (others : list (list Category))
          (pinching b : bool),
      detectThreeFingerPinch (wrist :: rest) = Some b ->
      let calls :=
        fst (fst (frame (mkFrame dbg (mkResults ((wrist :: rest) :: more)
                                                ((top :: lower) :: others)))
                        pinching)) in
      (b = false -> (0.4 <? score top) = true ->
       categoryName top = "Open_Palm"%string -> gestureCalls calls = [CHAOS])
      /\ (b = false -> (0.4 <? score top) = true ->
          categoryName top = "Closed_Fist"%string -> gestureCalls calls = [FORMED])
      /\ (categoryName top <> "Open_Palm"%string ->
          categoryName top <> "Closed_Fist"%string -> gestureCalls calls = [])
      /\ ((0.4 <? score top) = false -> gestureCalls calls = [])
      /\ (b = true -> gestureCalls calls = []))
  /\ gestureCalls (fst (fst (frame (classifiedFrame false "Open_Palm" 0.39) false)))
     = []
  /\ gestureCalls (fst (fst (frame (classifiedFrame false "Open_Palm" 0.4) false)))
     = []
  /\ gestureCalls (fst (fst (frame (classifiedFrame false "Open_Palm" 0.41) false)))
     = [CHAOS]
  /\ (forall (name : string) (confidence : float) (pinching : bool),
         gestureCalls
           (fst (fst (frame (classifiedFrame true name confidence) pinching)))
         = []).
Proof.
  split; [|split; [|split; [|split]]]; try (vm_compute; reflexivity).
  - intros dbg wrist rest more top lower others pinching b Hb calls.
    subst calls. rewrite (frame_hand_gestures _ _ _ _ _ _ _ _ b Hb).
    unfold modeCommand. repeat split.
    + intros -> -> ->. reflexivity.
    + intros -> -> ->. reflexivity.
    + intros Ho Hc. apply String.eqb_neq in Ho, Hc. rewrite Ho, Hc.
      now destruct (negb b && (0.4 <? score top))%bool.
    + intros ->. now rewrite andb_false_r.
    + intros ->. reflexivity.
  - intros name confidence pinching. unfold classifiedFrame.
    assert (Hb : detectThreeFingerPinch (pinchedHand 0.5) = Some true)
      by (vm_compute; reflexivity).
    change (pinchedHand 0.5)
      with (mkLandmark 0.5 0.5 0 :: tl (pinchedHand 0.5)) in Hb |- *.
    rewrite (frame_hand_gestures _ _ _ _ _ _ _ _ true Hb). reflexivity.
Qed.

Lemma discrete_gesture_mapping_witness :
  gestureCalls
    (fst (fst (frame (mkFrame true
                        (mkResults [spreadHand 0.5]
                                   [[mkCategory "Closed_Fist" 0.7;
                                     mkCategory "Open_Palm" 0.2]]))
                     true)))
  = [FORMED].
Proof.
  refine (proj1 (proj2 (proj1 discrete_gesture_mapping true
            (mkLandmark 0.5 0.5 0) (tl (spreadHand 0.5)) []
            (mkCategory "Closed_Fist" 0.7) [mkCategory "Open_Palm" 0.2] []
            true false _)) _ _ _); reflexivity.
Defined.

Lemma frame_hand_move (dbg : bool) (wrist : Landmark) (rest : list Landmark)
  (more : list (list Landmark)) (gs : list (list Category)) (pinching b : bool) :
  detectThreeFingerPinch (wrist :: rest) = Some b ->
  (match gs with [] :: _ => false | _ => true end) = true ->
  moveCalls
    (fst (fst (frame (mkFrame dbg (mkResults ((wrist :: rest) :: more) gs))
                     pinching)))
  = [rotationOf wrist].
Proof.
  intros Hb Hg. rewrite (frame_hand _ _ _ _ _ _ b Hb Hg). cbn [fst].
  rewrite !moveCalls_app, pinchCallsOf_move, gestureCallsIn_move. reflexivity.
Qed.

(** C7.  Rotation control.  On every processed frame with a detected hand
    exactly one [onMove] is called, with the speed (0.5 - wrist.x) * 0.15
    when the magnitude of that speed is above 0.01 and with 0 otherwise: a
    magnitude below 0.01 gives exactly 0, and a magnitude that is a number,
    not below 0.01 and not 0.01 itself gives the speed (a magnitude of
    exactly 0.01 gives 0).  On every processed frame without a hand
    [onMove(0)] is called.  A wrist at x = 0.44 has speed 0.009 and gives
    0; a wrist at x = 0.4266666666666667 has a speed just under 0.011,
    above the dead zone, and gives that speed. *)
Theorem rotation_control :
  (forall (dbg : bool) (wrist : Landmark) (rest : list Landmark)
          (more : list (list Landmark)) (gs : list (list Category))
          (pinching b : bool),
      detectThreeFingerPinch (wrist :: rest) = Some b ->
      (match gs with [] :: _ => false | _ => true end) = true ->
      let calls :=
        fst (fst (frame (mkFrame dbg (mkResults ((wrist :: rest) :: more) gs))
                        pinching)) in
      let speed := (0.5 - x wrist) * 0.15 in
      moveCalls calls = [if 0.01 <? PrimFloat.abs speed then speed else 0]
      /\ ((PrimFloat.abs speed <? 0.01) = true -> moveCalls calls = [0])
      /\ ((0.01 <? PrimFloat.abs speed) = true -> moveCalls calls = [speed])
      /\ ((PrimFloat.abs speed =? PrimFloat.abs speed) = true ->
          (PrimFloat.abs speed <? 0.01) = false ->
          (PrimFloat.abs speed =? 0.01) = false ->
          moveCalls calls = [speed])
      /\ ((PrimFloat.abs speed =? 0.01) = true -> moveCalls calls = [0]))
  /\ (forall (dbg : bool) (gs : list (list Category)) (pinching : bool),
         moveCalls (fst (fst (frame (mkFrame dbg (mkResults [] gs)) pinching)))
         = [0])
  /\ ((0.5 - 0.44) * 0.15 = 0.009
      /\ moveCalls
           (fst (fst (frame (mkFrame false (mkResults [spreadHand 0.44] []))
                            false)))
         = [0])
  /\ ((0.01 <? ((0.5 - 0.4266666666666667) * 0.15)) = true
      /\ (((0.5 - 0.4266666666666667) * 0.15) <? 0.011) = true
      /\ moveCalls
           (fst (fst (frame (mkFrame false
                               (mkResults [spreadHand 0.4266666666666667] []))
                            false)))
         = [(0.5 - 0.4266666666666667) * 0.15]).
Proof.
  split; [|split; [|split]]; try (vm_compute; repeat split; reflexivity).
  - intros dbg wrist rest more gs pinching b Hb Hg calls speed.
    subst calls. rewrite (frame_hand_move _ _ _ _ _ _ b Hb Hg).
    unfold rotationOf, speedOf. fold speed. repeat split.
    + intros H. now rewrite (FloatOrder.ltb_asym _ _ H).
    + intros ->. reflexivity.
    + intros Hn Hlt Heq.
      now rewrite (FloatOrder.ltb_total _ 0.01 Hn eq_refl Hlt Heq).
    + intros Heq. now rewrite (FloatOrder.eqb_not_ltb _ _ Heq).
  - intros dbg gs pinching. rewrite frame_no_hand. now destruct dbg.
Qed.

Lemma rotation_control_witness :
  moveCalls
    (fst (fst (frame (mkFrame true
                        (mkResults [spreadHand 0.2]
                                   [[mkCategory "Open_Palm" 0.9]]))
                     false)))
  = [(0.5 - 0.2) * 0.15].
Proof.
  refine (proj1 (proj2 (proj2 (proj2 (proj1 rotation_control true
            (mkLandmark 0.2 0.5 0) (tl (spreadHand 0.2)) []
            [[mkCategory "Open_Palm" 0.9]] false false _ _)))) _ _ _);
    reflexivity.
Defined.

(** Around the edge of the dead zone.  The wrist positions
    0.43333333333333335 and 0.43333333333333329 are adjacent binary64
    values: the first has a speed just under 0.01 and is clamped, the
    second a speed just over 0.01 and passes; so do, on the other side of
    the centre, 0.56666666666666665 and 0.56666666666666676 with negative
    speeds.  The one float whose product with 0.15 is exactly 0.01,
    0x1.1111111111111p-4, lies strictly between the two offsets
    0.5 - wrist.x of each pair. *)
Lemma dead_zone_boundary :
  next_down 0.43333333333333335 = 0.43333333333333329
  /\ rotationOf (mkLandmark 0.43333333333333335 0.5 0) = 0
  /\ rotationOf (mkLandmark 0.43333333333333329 0.5 0)
     = speedOf (mkLandmark 0.43333333333333329 0.5 0)
  /\ (0.01 <? speedOf (mkLandmark 0.43333333333333329 0.5 0)) = true
  /\ next_up 0.56666666666666665 = 0.56666666666666676
  /\ rotationOf (mkLandmark 0.56666666666666665 0.5 0) = 0
  /\ rotationOf (mkLandmark 0.56666666666666676 0.5 0)
     = speedOf (mkLandmark 0.56666666666666676 0.5 0)
  /\ (speedOf (mkLandmark 0.56666666666666676 0.5 0) <? -0.01) = true
  /\ (0x1.1111111111111p-4 * 0.15 =? 0.01) = true
  /\ (0.5 - 0.43333333333333335 <? 0x1.1111111111111p-4) = true
  /\ (0x1.1111111111111p-4 <? 0.5 - 0.43333333333333329) = true.
Proof. vm_compute. repeat split; reflexivity. Qed.

End GestureCommands.

(** ** Photo overlay *)

Section PhotoOverlay.

Import Gesture App.
Local Open Scope R_scope.

Lemma Int_part_iff (r : R) (k : Z) :
  Int_part r = k <-> IZR k <= r < IZR k + 1.
Proof.
  split.
  - intros <-. destruct (base_Int_part r). lra.
  - intros H. symmetry. apply Int_part_spec. lra.
Qed.

Lemma photos_count : INR (List.length bodyPhotoPaths) = 9.
Proof. cbn. lra. Qed.


(** The draws that select the photo of index [i]. *)
Lemma handlePinch_selects (i : nat) (random : R) (s : State) :
  INR i / 9 <= random < (INR i + 1) / 9 ->
  truthy (selectedPhoto s) = false ->
  handlePinch random true s = setSelectedPhoto (nth_error bodyPhotoPaths i) s.
Proof.
  intros Hr Hs. unfold handlePinch. rewrite Hs. cbn [andb negb].
  rewrite photos_count.
  assert (E : Int_part (random * 9) = Z.of_nat i).
  { apply Int_part_iff. rewrite <- INR_IZR_INZ. lra. }
  rewrite E. unfold at_index.
  destruct (Z.ltb_spec (Z.of_nat i) 0); [lia|].
  now rewrite Nat2Z.id.
Qed.



Lemma handlePinch_end (random : R) (s : State) :
  truthy (selectedPhoto s) = true ->
  handlePinch random false s = setSelectedPhoto None s.
Proof. intros H. unfold handlePinch. rewrite H. reflexivity. Qed.

Lemma handlePinch_end_hidden (random : R) (s : State) :
  truthy (selectedPhoto s) = false -> handlePinch random false s = s.
Proof. intros H. unfold handlePinch. rewrite H. reflexivity. Qed.



End PhotoOverlay.

(** ** Hand loss during a pinch *)

Section HandLoss.

Import Gesture App.
Local Open Scope R_scope.

Lemma act_handless (a : Action) (p : Page) :
  handless a -> running p = true ->
  pinching (act a p) = pinching p
  /\ running (act a p) = true
  /\ selectedPhoto (state (act a p)) = selectedPhoto (state p)
  /\ sceneState (state (act a p)) = sceneState (state p)
  /\ rotationSpeed (state (act a p)) = 0%float
  /\ exists f random calls alive,
       a = Inference f random
       /\ frame f (pinching p) = (calls, pinching p, alive)
       /\ pinchCalls calls = [] /\ moveCalls calls = [0%float].
Proof.
  destruct a as [[dbg [ls gs]] random| |]; cbn [handless]; try tauto.
  cbn [results landmarks]. intros -> Hrun. cbn [act]. rewrite Hrun.
  rewrite frame_no_hand.
  repeat split; try (destruct dbg; reflexivity).
  exists (mkFrame dbg (mkResults [] gs)), random.
  eexists; eexists. split; [reflexivity|].
  rewrite frame_no_hand. split; [reflexivity|].
  destruct dbg; split; reflexivity.
Qed.

Lemma run_handless (actions : list Action) (p : Page) :
  Forall handless actions -> running p = true ->
  pinching (run actions p) = pinching p
  /\ running (run actions p) = true
  /\ selectedPhoto (state (run actions p)) = selectedPhoto (state p)
  /\ sceneState (state (run actions p)) = sceneState (state p)
  /\ (actions <> [] -> rotationSpeed (state (run actions p)) = 0%float).
Proof.
  intros H. revert p. induction H as [|a rest Ha _ IH]; intros p Hrun.
  - repeat split; [exact Hrun|congruence].
  - cbn [run fold_left]. fold (run rest (act a p)).
    destruct (act_handless a p Ha Hrun) as [H1 [Hr [H2 [H3 [H4 _]]]]].
    destruct (IH (act a p) Hr) as [I1 [Ir [I2 [I3 I4]]]].
    rewrite I1, I2, I3, H1, H2, H3. repeat split; [exact Ir|].
    intros _. destruct rest as [|b rest'].
    + exact H4.
    + apply I4. discriminate.
Qed.

(** The photo a delivery leaves depends only on its pinch calls. *)
Lemma dispatch_photo (random : R) (c : Callback) (s : State) :
  pinchCalls [c] = [] -> selectedPhoto (dispatch random c s) = selectedPhoto s.
Proof. destruct c; cbn; try reflexivity. discriminate. Qed.

Lemma deliver_no_pinch (random : R) (calls : list Callback) (s : State) :
  pinchCalls calls = [] ->
  selectedPhoto (deliver random calls s) = selectedPhoto s.
Proof.
  revert s. induction calls as [|c rest IH]; intros s H; [reflexivity|].
  change (c :: rest) with ([c] ++ rest) in H. rewrite pinchCalls_app in H.
  apply app_eq_nil in H as [Hc Hrest].
  cbn [deliver fold_left]. fold (deliver random rest (dispatch random c s)).
  rewrite (IH _ Hrest). now apply dispatch_photo.
Qed.

(** A frame with a hand whose pinch test is false, while the stored pinch
    state is true and a photo is displayed, ends the pinch and closes the
    photo. *)
Lemma act_release (f : Frame) (random : R) (p : Page) :
  wellFormed f = true -> pinchOf f = Some false ->
  running p = true -> pinching p = true ->
  truthy (selectedPhoto (state p)) = true ->
  pinching (act (Inference f random) p) = false
  /\ selectedPhoto (state (act (Inference f random) p)) = None
  /\ pinchCalls (fst (fst (frame f (pinching p)))) = [false].
Proof.
  intros Hw Hp Hrun Hr Hs. destruct f as [dbg [[|l0 more] gs]]; [discriminate|].
  unfold wellFormed, pinchOf in *. cbn [results landmarks gestures] in *.
  apply andb_prop in Hw as [Hl Hg].
  destruct l0 as [|wrist rest]; [discriminate|].
  assert (Hg' : (match gs with [] :: _ => false | _ => true end) = true).
  { destruct gs as [|[|top lower] others]; try reflexivity. discriminate. }
  cbn [act]. rewrite Hrun, Hr.
  rewrite (frame_hand dbg wrist rest more gs true false Hp Hg').
  cbn [pinching state fst]. split; [reflexivity|].
  replace (pinchCallsOf dbg true false) with [onPinch false]
    by (destruct dbg; reflexivity).
  split.
  - cbn [app deliver fold_left dispatch].
    fold (deliver random (gestureCallsIn dbg false gs ++ [onMove (rotationOf wrist)])
            (handlePinch random false (state p))).
    rewrite deliver_no_pinch.
    + now rewrite handlePinch_end.
    + rewrite pinchCalls_app, gestureCallsIn_pinch. reflexivity.
  - rewrite !pinchCalls_app, gestureCallsIn_pinch. reflexivity.
Qed.

(** C10.  Hand loss during a pinch.  While the stored pinch state is true,
    any run of processed frames without a hand calls no [onPinch], leaves
    the pinch state true, leaves the displayed photo (and the scene mode)
    as they are, and every such frame calls [onMove(0)], so the rotation
    speed is 0 after it.  The photo closes on the next processed frame
    that detects a hand with the pinch test false, which calls
    [onPinch(false)], or on the user's dismissal. *)
Theorem pinch_survives_hand_loss :
  (forall (actions : list Action) (p : Page),
      Forall handless actions -> running p = true -> pinching p = true ->
      pinching (run actions p) = true
      /\ running (run actions p) = true
      /\ selectedPhoto (state (run actions p)) = selectedPhoto (state p)
      /\ (actions <> [] -> rotationSpeed (state (run actions p)) = 0%float))
  /\ (forall (a : Action) (p : Page),
         handless a -> running p = true ->
         rotationSpeed (state (act a p)) = 0%float
         /\ exists f random calls alive,
              a = Inference f random
              /\ frame f (pinching p) = (calls, pinching p, alive)
              /\ pinchCalls calls = [] /\ moveCalls calls = [0%float])
  /\ (forall (f : Frame) (random : R) (p : Page),
         wellFormed f = true -> pinchOf f = Some false ->
         running p = true -> pinching p = true ->
         truthy (selectedPhoto (state p)) = true ->
         pinching (act (Inference f random) p) = false
         /\ selectedPhoto (state (act (Inference f random) p)) = None
         /\ pinchCalls (fst (fst (frame f (pinching p)))) = [false])
  /\ (forall p : Page, selectedPhoto (state (act ClosePhoto p)) = None).
Proof.
  split; [|split; [|split]].
  - intros actions p H Hrun Hp.
    destruct (run_handless actions p H Hrun) as [H1 [Hr [H2 [_ H4]]]].
    rewrite H1. auto.
  - intros a p H Hrun.
    destruct (act_handless a p H Hrun) as [_ [_ [_ [_ [H4 H5]]]]]. auto.
  - exact act_release.
  - reflexivity.
Qed.

(** A pinch at draw 1/2 opens photo 4; the hand then leaves for three
    frames: the photo stays, the pinch state stays true and the rotation
    speed is 0. *)
Lemma pinch_survives_hand_loss_witness :
  let opened := act (Inference (handFrame true) (1 / 2)) start in
  let lost := run [Inference noHandFrame 0; Inference noHandFrame 0;
                   Inference noHandFrame 0] opened in
  selectedPhoto (state opened) = Some "/photos/4.jpg"%string
  /\ pinching lost = true
  /\ selectedPhoto (state lost) = Some "/photos/4.jpg"%string
  /\ rotationSpeed (state lost) = 0%float.
Proof.
  intros opened lost.
  assert (Ho : selectedPhoto (state opened) = Some "/photos/4.jpg"%string).
  { subst opened. cbn [act start pinching running state].
    replace (frame (handFrame true) false)
      with ([onPinch true; onMove 0%float], true, true)
      by (vm_compute; reflexivity).
    cbn [deliver fold_left dispatch].
    rewrite (handlePinch_selects 4 (1 / 2) initial); [reflexivity| |reflexivity].
    simpl INR. lra. }
  assert (Hp : pinching opened = true /\ running opened = true).
  { subst opened. cbn [act start pinching running state].
    replace (frame (handFrame true) false)
      with ([onPinch true; onMove 0%float], true, true)
      by (vm_compute; reflexivity).
    split; reflexivity. }
  split; [exact Ho|].
  destruct (proj1 pinch_survives_hand_loss
              [Inference noHandFrame 0; Inference noHandFrame 0;
               Inference noHandFrame 0] opened) as [H1 [_ [H2 H3]]].
  - repeat constructor.
  - exact (proj2 Hp).
  - exact (proj1 Hp).
  - fold lost in H1, H2, H3. rewrite H2.
    split; [exact H1|]. split; [exact Ho|]. apply H3. discriminate.
Defined.

End HandLoss.

(** ** Delegate fallback *)

Section DelegateFallback.

Import Setup.
Local Open Scope string_scope.





End DelegateFallback.

(** ** Morph scheduler: continuity and convergence *)

Section MorphFacts.

Import Morph.
Local Open Scope R_scope.

Lemma sqrt_scale (a s : R) : 0 <= s -> sqrt (a * a * s) = Rabs a * sqrt s.
Proof.
  intros Hs. rewrite sqrt_mult; [|apply Rle_0_sqr|exact Hs].
  f_equal. exact (sqrt_Rsqr_abs a).
Qed.

Lemma squares_nonneg (a b c : R) : 0 <= a * a + b * b + c * c.
Proof.
  pose proof (Rle_0_sqr a). pose proof (Rle_0_sqr b). pose proof (Rle_0_sqr c).
  unfold Rsqr in *. lra.
Qed.

Lemma distanceTo_nonneg (a b : Vector3) : 0 <= distanceTo a b.
Proof. apply sqrt_pos. Qed.

Lemma distanceTo_sym (a b : Vector3) : distanceTo a b = distanceTo b a.
Proof. unfold distanceTo. f_equal. ring. Qed.

(** A [lerp] moves the point by |alpha| times its distance to the goal ... *)
Lemma distanceTo_lerp_from (p t : Vector3) (alpha : R) :
  distanceTo (lerp p t alpha) p = Rabs alpha * distanceTo p t.
Proof.
  unfold distanceTo, lerp. cbn [x y z].
  rewrite <- sqrt_scale by apply squares_nonneg. f_equal. ring.
Qed.

(** ... and leaves it at |1 - alpha| times that distance from the goal. *)
Lemma distanceTo_lerp_to (p t : Vector3) (alpha : R) :
  distanceTo (lerp p t alpha) t = Rabs (1 - alpha) * distanceTo p t.
Proof.
  unfold distanceTo, lerp. cbn [x y z].
  rewrite <- sqrt_scale by apply squares_nonneg. f_equal. ring.
Qed.

(** Two [lerp]s from the same point toward the same goal. *)
Lemma distanceTo_lerp_lerp (p t : Vector3) (a1 a2 : R) :
  distanceTo (lerp p t a1) (lerp p t a2) = Rabs (a1 - a2) * distanceTo p t.
Proof.
  unfold distanceTo, lerp. cbn [x y z].
  rewrite <- sqrt_scale by apply squares_nonneg. f_equal. ring.
Qed.

Lemma useFrame_fixed (c : Category) (m : SceneState) (delta : R) (o : Instance) :
  chaosPos (useFrame c m delta o) = chaosPos o
  /\ targetPos (useFrame c m delta o) = targetPos o
  /\ weight (useFrame c m delta o) = weight o.
Proof. repeat split. Qed.

Lemma rate_useFrame (c : Category) (m m' : SceneState) (delta : R) (o : Instance) :
  rate c m (useFrame c m' delta o) = rate c m o.
Proof. destruct c; reflexivity. Qed.

Lemma pool_render (c : Category) (e delta : R) (s : Scene) :
  pool c (render e delta s) = map (useFrame c (sceneState s) delta) (pool c s).
Proof. destruct c; reflexivity. Qed.

Lemma pool_setSceneState (c : Category) (m : SceneState) (s : Scene) :
  pool c (setSceneState m s) = pool c s.
Proof. destruct c; reflexivity. Qed.

(** Small frames move little. *)
Lemma useFrame_small (c : Category) (m : SceneState) (o : Instance) (eps : R) :
  0 < eps ->
  exists eta : R,
    0 < eta
    /\ forall delta : R,
         Rabs delta < eta ->
         distanceTo (currentPos (useFrame c m delta o)) (currentPos o) < eps.
Proof.
  intros Heps.
  set (K := Rabs (rate c m o) * distanceTo (currentPos o) (target m o)).
  assert (HK : 0 <= K).
  { apply Rmult_le_pos; [apply Rabs_pos|apply distanceTo_nonneg]. }
  exists (eps / (K + 1)). split.
  - apply Rdiv_lt_0_compat; lra.
  - intros delta Hd. unfold useFrame, moveTo. cbn [currentPos].
    rewrite distanceTo_lerp_from, Rabs_mult, Rmult_assoc. fold K.
    assert (Hd0 : 0 <= Rabs delta) by apply Rabs_pos.
    assert (E : eps / (K + 1) * (K + 1) = eps) by (field; lra).
    nra.
Qed.

(** C4.  No jump on a mode change.  Setting the scene mode leaves every
    instance of every category where it is.  A rendered frame replaces
    each current position by its [lerp] toward the target of the mode of
    the moment, by the factor delta * rate, and touches neither target:
    the instance moves by |delta * rate| times its distance to that
    target, two frames of deltas d1 and d2 from the same state end
    |d1 - d2| * |rate| times that distance apart, and for every eps > 0
    there is an eta > 0 such that a frame of |delta| < eta moves the
    instance by less than eps.  All of this holds from any state and for
    either mode, so also for a frame rendered right after a mode change,
    however often the mode was changed before. *)
Theorem no_jump_on_mode_change :
  (forall (c : Category) (m : SceneState) (s : Scene),
      pool c (setSceneState m s) = pool c s)
  /\ (forall (c : Category) (e delta : R) (s : Scene),
         pool c (render e delta s)
         = map (useFrame c (sceneState s) delta) (pool c s))
  /\ (forall (c : Category) (m : SceneState) (delta : R) (o : Instance),
         currentPos (useFrame c m delta o)
         = lerp (currentPos o) (target m o) (delta * rate c m o)
         /\ chaosPos (useFrame c m delta o) = chaosPos o
         /\ targetPos (useFrame c m delta o) = targetPos o
         /\ distanceTo (currentPos (useFrame c m delta o)) (currentPos o)
            = Rabs (delta * rate c m o) * distanceTo (currentPos o) (target m o))
  /\ (forall (c : Category) (m : SceneState) (d1 d2 : R) (o : Instance),
         distanceTo (currentPos (useFrame c m d1 o))
                    (currentPos (useFrame c m d2 o))
         = Rabs (d1 - d2) * Rabs (rate c m o)
           * distanceTo (currentPos o) (target m o))
  /\ (forall (c : Category) (m : SceneState) (o : Instance) (eps : R),
         0 < eps ->
         exists eta : R,
           0 < eta
           /\ forall delta : R,
                Rabs delta < eta ->
                distanceTo (currentPos (useFrame c m delta o)) (currentPos o)
                < eps)
  /\ (forall (c : Category) (m : SceneState) (s : Scene) (i : nat)
             (o : Instance) (e eps : R),
         nth_error (pool c s) i = Some o -> 0 < eps ->
         exists eta : R,
           0 < eta
           /\ forall delta : R,
                Rabs delta < eta ->
                exists o' : Instance,
                  nth_error (pool c (render e delta (setSceneState m s))) i
                  = Some o'
                  /\ distanceTo (currentPos o') (currentPos o) < eps).
Proof.
  split; [exact pool_setSceneState|]. split; [exact pool_render|].
  split; [|split; [|split; [exact useFrame_small|]]].
  - intros c m delta o. repeat split.
    unfold useFrame, moveTo. cbn [currentPos]. apply distanceTo_lerp_from.
  - intros c m d1 d2 o. unfold useFrame, moveTo. cbn [currentPos].
    rewrite distanceTo_lerp_lerp, <- Rabs_mult. f_equal. f_equal. ring.
  - intros c m s i o e eps Hi Heps.
    destruct (useFrame_small c m o eps Heps) as [eta [Heta H]].
    exists eta. split; [exact Heta|]. intros delta Hd.
    exists (useFrame c m delta o). split; [|now apply H].
    rewrite pool_render, pool_setSceneState. cbn [sceneState setSceneState].
    now rewrite nth_error_map, Hi.
Qed.

Lemma no_jump_on_mode_change_witness :
  let o := mkInstance (vec3 0 0 0) (vec3 3 0 4) (vec3 0 0 0) 1 in
  let s := mkScene CHAOS [] [] [o] (mkFoliage 0 0) in
  exists eta : R,
    0 < eta
    /\ forall delta : R,
         Rabs delta < eta ->
         exists o' : Instance,
           nth_error (pool FairyLights (render 0 delta (setSceneState FORMED s))) 0
           = Some o'
           /\ distanceTo (currentPos o') (currentPos o) < 1 / 100.
Proof.
  intros o s.
  apply (proj2 (proj2 (proj2 (proj2 (proj2 no_jump_on_mode_change))))
           FairyLights FORMED s 0%nat o 0 (1 / 100)).
  - reflexivity.
  - lra.
Defined.

End MorphFacts.

(** ** Convergence while FORMED is held *)

Section Convergence.

Import Morph.
Local Open Scope R_scope.

Lemma hold_fixed (c : Category) (m : SceneState) (deltas : list R) (o : Instance) :
  targetPos (hold c m deltas o) = targetPos o
  /\ weight (hold c m deltas o) = weight o.
Proof.
  revert o. induction deltas as [|d rest IH]; intros o; [split; reflexivity|].
  cbn [hold]. destruct (IH (useFrame c m d o)) as [H1 H2].
  rewrite H1, H2. split; reflexivity.
Qed.

(** One FORMED frame multiplies the distance to the target by
    |1 - delta * rate|. *)
Lemma useFrame_formed (c : Category) (delta : R) (o : Instance) :
  distanceTo (currentPos (useFrame c FORMED delta o)) (targetPos o)
  = Rabs (1 - delta * rate c FORMED o)
    * distanceTo (currentPos o) (targetPos o).
Proof.
  unfold useFrame, moveTo. cbn [currentPos target isFormed SceneState_eqb].
  apply distanceTo_lerp_to.
Qed.

Lemma exp_decay (u : R) : 0 <= u -> exp (- u) <= / (1 + u).
Proof.
  intros Hu. rewrite exp_Ropp.
  apply Rinv_le_contravar; [lra|apply exp_ineq1_le].
Qed.

Lemma one_minus_le_exp (u : R) : 1 - u <= exp (- u).
Proof. pose proof (exp_ineq1_le (- u)). lra. Qed.

(** Frames that do not overshoot: the distance decays at least as fast as
    exp(- rate * elapsed time). *)
Lemma hold_formed_decay (c : Category) (deltas : list R) (o : Instance) :
  Forall (fun d => 0 <= d /\ d * rate c FORMED o <= 1) deltas ->
  0 <= rate c FORMED o ->
  distanceTo (currentPos (hold c FORMED deltas o)) (targetPos o)
  <= exp (- (rate c FORMED o * elapsed deltas))
     * distanceTo (currentPos o) (targetPos o).
Proof.
  intros H Hr. revert o H Hr.
  induction deltas as [|d rest IH]; intros o H Hr.
  - cbn [hold elapsed fold_right]. rewrite Rmult_0_r, Ropp_0, exp_0. lra.
  - inversion H as [|d' rest' [Hd0 Hd1] Hrest]; subst.
    cbn [hold elapsed fold_right]. fold (elapsed rest).
    specialize (IH (useFrame c FORMED d o)).
    rewrite rate_useFrame in IH.
    destruct (useFrame_fixed c FORMED d o) as [_ [Ht _]]. rewrite Ht in IH.
    specialize (IH Hrest Hr). rewrite useFrame_formed in IH.
    rewrite Rabs_right in IH by lra.
    set (r := rate c FORMED o) in *.
    set (D := distanceTo (currentPos o) (targetPos o)) in *.
    assert (HD : 0 <= D) by apply distanceTo_nonneg.
    replace (- (r * (d + elapsed rest)))
      with (- (r * elapsed rest) + - (d * r)) by ring.
    rewrite exp_plus.
    pose proof (one_minus_le_exp (d * r)) as Hexp.
    pose proof (exp_pos (- (r * elapsed rest))) as Hpos.
    eapply Rle_trans; [exact IH|].
    rewrite Rmult_assoc. apply Rmult_le_compat_l; [lra|].
    apply Rmult_le_compat_r; [exact HD|exact Hexp].
Qed.

(** Frames of bounded factor: the distance decays at least as fast as
    q ^ (number of frames). *)
Lemma hold_formed_geometric (c : Category) (q : R) (deltas : list R) (o : Instance) :
  Forall (fun d => Rabs (1 - d * rate c FORMED o) <= q) deltas ->
  distanceTo (currentPos (hold c FORMED deltas o)) (targetPos o)
  <= q ^ List.length deltas * distanceTo (currentPos o) (targetPos o).
Proof.
  intros H. revert o H. induction deltas as [|d rest IH]; intros o H.
  - cbn. lra.
  - inversion H as [|d' rest' Hd Hrest]; subst.
    cbn [hold List.length pow].
    specialize (IH (useFrame c FORMED d o)).
    rewrite rate_useFrame in IH.
    destruct (useFrame_fixed c FORMED d o) as [_ [Ht _]]. rewrite Ht in IH.
    specialize (IH Hrest). rewrite useFrame_formed in IH.
    set (D := distanceTo (currentPos o) (targetPos o)) in *.
    assert (HD : 0 <= D) by apply distanceTo_nonneg.
    assert (Hq : 0 <= q).
    { eapply Rle_trans; [apply Rabs_pos|exact Hd]. }
    assert (Hqn : 0 <= q ^ List.length rest) by (apply pow_le; exact Hq).
    eapply Rle_trans; [exact IH|].
    replace (q * q ^ List.length rest * D)
      with (q ^ List.length rest * (q * D)) by ring.
    apply Rmult_le_compat_l; [exact Hqn|].
    apply Rmult_le_compat_r; [exact HD|exact Hd].
Qed.

(** [damp] toward [goal]: the error is multiplied by exp(- lambda * dt). *)
Lemma damp_error (u goal lambda dt : R) :
  damp u goal lambda dt - goal = exp (- lambda * dt) * (u - goal).
Proof. unfold damp, lerp1. ring. Qed.

Lemma dampTo_error (goal lambda : R) (deltas : list R) (u : R) :
  dampTo goal lambda deltas u - goal
  = exp (- (lambda * elapsed deltas)) * (u - goal).
Proof.
  revert u. induction deltas as [|d rest IH]; intros u.
  - cbn [dampTo elapsed fold_right]. rewrite Rmult_0_r, Ropp_0, exp_0. ring.
  - cbn [dampTo elapsed fold_right]. fold (elapsed rest).
    rewrite IH, damp_error.
    replace (- (lambda * (d + elapsed rest)))
      with (- (lambda * elapsed rest) + - lambda * d) by ring.
    rewrite exp_plus. ring.
Qed.

Lemma holdFoliage_progress (m : SceneState) (deltas : list R) (f : FoliageMaterial) :
  uProgress (holdFoliage m deltas f)
  = dampTo (if isFormed m then 1 else 0) 1.5 deltas (uProgress f).
Proof.
  revert f. induction deltas as [|d rest IH]; intros f; [reflexivity|].
  cbn [holdFoliage dampTo]. rewrite IH. reflexivity.
Qed.

(** A bound exp(- rate * t) * D falls under eps once t is large. *)
Lemma decay_reaches (rate D eps : R) :
  0 < rate -> 0 <= D -> 0 < eps ->
  forall t : R, D / (eps * rate) <= t -> exp (- (rate * t)) * D < eps.
Proof.
  intros Hr HD Heps t Ht.
  assert (Hp : 0 < eps * rate) by (apply Rmult_lt_0_compat; lra).
  assert (Ht0 : 0 <= t).
  { eapply Rle_trans; [|exact Ht].
    apply Rmult_le_pos; [exact HD|left; apply Rinv_0_lt_compat; exact Hp]. }
  assert (Hrt : 0 <= rate * t) by (apply Rmult_le_pos; lra).
  pose proof (exp_decay (rate * t) Hrt) as He.
  assert (HDt : D <= t * (eps * rate)).
  { apply (Rmult_le_compat_r (eps * rate)) in Ht; [|lra].
    replace (D / (eps * rate) * (eps * rate)) with D in Ht by (field; lra).
    exact Ht. }
  apply Rle_lt_trans with (/ (1 + rate * t) * D).
  - apply Rmult_le_compat_r; [exact HD|exact He].
  - apply (Rmult_lt_reg_l (1 + rate * t)); [lra|].
    rewrite <- Rmult_assoc, Rinv_r by lra. nra.
Qed.

(** The light drawn at (1/2, 1/2, 1/2, 1/2, 0): it starts at the origin and
    aims at (4.8, 0, 0). *)
Lemma light_sample :
  Pool.light (1 / 2) (1 / 2) (1 / 2) (1 / 2) 0
  = mkInstance (vec3 0 0 0) (vec3 4.8 0 0) (vec3 0 0 0) 0.
Proof.
  unfold Pool.light, Pool.chaosBox, Pool.onTree, Pool.TREE_height,
    Pool.TREE_radius.
  replace (0 * PI * 2) with 0 by ring. rewrite cos_0, sin_0.
  f_equal; f_equal; lra.
Qed.

Lemma light_sample_distance :
  distanceTo (vec3 0 0 0) (vec3 4.8 0 0) = 4.8.
Proof.
  unfold distanceTo. cbn [x y z].
  replace ((0 - 4.8) * (0 - 4.8) + (0 - 0) * (0 - 0) + (0 - 0) * (0 - 0))
    with (4.8 * 4.8) by ring.
  apply sqrt_square. lra.
Qed.

(** Frames of one second on a light: the factor is 2 and the light jumps to
    the mirror image of its position across the target, forever. *)
Lemma light_one_second_frames (n : nat) (o : Instance) :
  distanceTo (currentPos (hold FairyLights FORMED (repeat 1 n) o)) (targetPos o)
  = distanceTo (currentPos o) (targetPos o).
Proof.
  revert o. induction n as [|n IH]; intros o; [reflexivity|].
  cbn [repeat hold].
  specialize (IH (useFrame FairyLights FORMED 1 o)).
  destruct (useFrame_fixed FairyLights FORMED 1 o) as [_ [Ht _]].
  rewrite Ht in IH. rewrite IH, useFrame_formed. cbn [rate].
  replace (1 - 1 * 2.0) with (- (1)) by lra.
  rewrite Rabs_Ropp, Rabs_R1. ring.
Qed.

Lemma elapsed_repeat (d : R) (n : nat) : elapsed (repeat d n) = INR n * d.
Proof.
  induction n as [|n IH]; [cbn; ring|].
  cbn [repeat elapsed fold_right]. fold (elapsed (repeat d n)).
  rewrite IH, S_INR. ring.
Qed.

(** C5, as stated, fails.  A fairy light drawn at (1/2, 1/2, 1/2, 1/2, 0)
    with FORMED held and frames one second apart: the elapsed time grows
    without bound and the light stays at distance 4.8 from its target, so
    it is never within 1 of it. *)
Lemma formed_convergence_counterexample :
  let o := Pool.light (1 / 2) (1 / 2) (1 / 2) (1 / 2) 0 in
  0 < rate FairyLights FORMED o
  /\ (forall n : nat, elapsed (repeat 1 n) = INR n)
  /\ (forall n : nat,
         distanceTo (currentPos (hold FairyLights FORMED (repeat 1 n) o))
                    (targetPos o) = 4.8)
  /\ ~ (exists N : nat, forall n : nat, (N <= n)%nat ->
          distanceTo (currentPos (hold FairyLights FORMED (repeat 1 n) o))
                     (targetPos o) < 1).
Proof.
  intros o.
  assert (H : forall n : nat,
             distanceTo (currentPos (hold FairyLights FORMED (repeat 1 n) o))
                        (targetPos o) = 4.8).
  { intros n. rewrite light_one_second_frames. subst o. rewrite light_sample.
    cbn [currentPos targetPos]. exact light_sample_distance. }
  split; [cbn; lra|]. split; [intros n; rewrite elapsed_repeat; ring|].
  split; [exact H|].
  intros [N HN]. specialize (HN N (Nat.le_refl N)). rewrite H in HN. lra.
Qed.

(** C5, amended.  With FORMED held:
    - an instance of any of the three mesh categories whose frames do not
      overshoot (0 <= delta and delta * rate <= 1 on every frame) is within
      eps of its target once enough time has elapsed, whatever the frame
      lengths;
    - it is so as well after enough frames when the frame lengths lie in
      [dmin, dmax] with 0 < dmin and dmax * rate < 2;
    - [MathUtils.damp] toward 1 at any rate lambda > 0 brings the progress
      within eps of 1 once enough time has elapsed, whatever the frame
      lengths, and the foliage progress [uProgress] is that at rate 1.5;
    - the rates are 1.5 for elements, 2 for lights and 0.8 * weight for
      ornaments, positive for every ornament the pool generates;
    - at progress 1 the vertex shader draws a foliage point at its target
      plus the jitter [noise], not at the target. *)
Theorem formed_convergence :
  (forall (c : Category) (o : Instance) (eps : R),
      0 < rate c FORMED o -> 0 < eps ->
      exists T : R,
        forall deltas : list R,
          Forall (fun d => 0 <= d /\ d * rate c FORMED o <= 1) deltas ->
          T <= elapsed deltas ->
          distanceTo (currentPos (hold c FORMED deltas o)) (targetPos o) < eps)
  /\ (forall (c : Category) (o : Instance) (dmin dmax eps : R),
         0 < rate c FORMED o -> 0 < dmin -> dmin <= dmax ->
         dmax * rate c FORMED o < 2 -> 0 < eps ->
         exists N : nat,
           forall deltas : list R,
             Forall (fun d => dmin <= d <= dmax) deltas ->
             (N <= List.length deltas)%nat ->
             distanceTo (currentPos (hold c FORMED deltas o)) (targetPos o) < eps)
  /\ (forall (lambda u eps : R),
         0 < lambda -> 0 < eps ->
         exists T : R,
           forall deltas : list R,
             T <= elapsed deltas ->
             Rabs (dampTo 1 lambda deltas u - 1) < eps)
  /\ (forall (f : FoliageMaterial) (eps : R),
         0 < eps ->
         exists T : R,
           forall deltas : list R,
             T <= elapsed deltas ->
             Rabs (uProgress (holdFoliage FORMED deltas f) - 1) < eps)
  /\ (forall o : Instance,
         rate ChristmasElements FORMED o = 1.5
         /\ rate FairyLights FORMED o = 2
         /\ rate PhotoOrnaments FORMED o = 0.8 * weight o)
  /\ (forall r1 r2 r3 r4 r5 rw : R,
         Pool.draw rw ->
         0 < rate PhotoOrnaments FORMED (Pool.ornament r1 r2 r3 r4 r5 rw))
  /\ (forall (f : FoliageMaterial) (position aTargetPos : Vector3),
         uProgress f = 1 ->
         finalPos f position aTargetPos
         = plus aTargetPos (noise (uTime f) position)).
Proof.
  assert (Damp : forall (lambda u eps : R),
             0 < lambda -> 0 < eps ->
             exists T : R,
               forall deltas : list R,
                 T <= elapsed deltas ->
                 Rabs (dampTo 1 lambda deltas u - 1) < eps).
  { intros lambda u eps Hl Heps. exists (Rabs (u - 1) / (eps * lambda)).
    intros deltas Ht. rewrite dampTo_error, Rabs_mult.
    rewrite (Rabs_right (exp _)) by (left; apply exp_pos).
    apply decay_reaches with (rate := lambda); auto. apply Rabs_pos. }
  split; [|split; [|split; [exact Damp|split; [|split; [|split]]]]].
  - intros c o eps Hr Heps.
    exists (distanceTo (currentPos o) (targetPos o) / (eps * rate c FORMED o)).
    intros deltas Hd Ht.
    eapply Rle_lt_trans; [apply hold_formed_decay; [exact Hd|lra]|].
    apply decay_reaches; auto. apply distanceTo_nonneg.
  - intros c o dmin dmax eps Hr Hmin Hle Hmax Heps.
    set (r := rate c FORMED o) in *.
    set (D := distanceTo (currentPos o) (targetPos o)).
    assert (HD : 0 <= D) by apply distanceTo_nonneg.
    set (q := Rmax (Rabs (1 - dmin * r)) (Rabs (1 - dmax * r))).
    assert (Hq1 : Rabs q < 1).
    { assert (0 < dmin * r) by (apply Rmult_lt_0_compat; lra).
      assert (dmin * r <= dmax * r) by (apply Rmult_le_compat_r; lra).
      assert (Rabs (1 - dmin * r) < 1) by (apply Rabs_def1; lra).
      assert (Rabs (1 - dmax * r) < 1) by (apply Rabs_def1; lra).
      assert (0 <= q).
      { eapply Rle_trans; [apply Rabs_pos|apply Rmax_l]. }
      rewrite Rabs_right by lra. unfold q. apply Rmax_lub_lt; assumption. }
    assert (He : 0 < eps / (D + 1)) by (apply Rdiv_lt_0_compat; lra).
    destruct (pow_lt_1_zero q Hq1 (eps / (D + 1)) He) as [N HN].
    exists N. intros deltas Hd Hlen.
    assert (Hq : Forall (fun d => Rabs (1 - d * r) <= q) deltas).
    { eapply Forall_impl; [|exact Hd]. cbn beta. intros d [Hd1 Hd2].
      assert (dmin * r <= d * r) by (apply Rmult_le_compat_r; lra).
      assert (d * r <= dmax * r) by (apply Rmult_le_compat_r; lra).
      unfold q. apply Rabs_le. split.
      - apply Rle_trans with (- Rabs (1 - dmax * r)).
        + apply Ropp_le_contravar. apply Rmax_r.
        + pose proof (Rle_abs (- (1 - dmax * r))) as A.
          rewrite Rabs_Ropp in A. lra.
      - apply Rle_trans with (Rabs (1 - dmin * r)); [|apply Rmax_l].
        pose proof (Rle_abs (1 - dmin * r)). lra. }
    eapply Rle_lt_trans; [apply (hold_formed_geometric c q deltas o Hq)|].
    fold D. specialize (HN (List.length deltas) Hlen).
    apply Rabs_def2 in HN as [HN1 _].
    assert (Hqn : 0 <= q ^ List.length deltas).
    { apply pow_le. eapply Rle_trans; [apply Rabs_pos|apply Rmax_l]. }
    assert (E : eps / (D + 1) * (D + 1) = eps) by (field; lra).
    nra.
  - intros f eps Heps. destruct (Damp 1.5 (uProgress f) eps) as [T HT]; [lra|auto|].
    exists T. intros deltas Ht. rewrite holdFoliage_progress.
    cbn [isFormed SceneState_eqb]. now apply HT.
  - intros o. cbn [rate isFormed SceneState_eqb]. repeat split; lra.
  - intros r1 r2 r3 r4 r5 rw [H0 H1].
    cbn [rate isFormed SceneState_eqb Pool.ornament weight]. lra.
  - intros f position aTargetPos H. unfold finalPos, cubicInOut. rewrite H.
    destruct (Rlt_dec 1 0.5) as [Hlt|_]; [lra|].
    unfold mix, plus. cbn [x y z]. f_equal; ring.
Qed.

Lemma formed_convergence_witness :
  let o := Pool.light (1 / 2) (1 / 2) (1 / 2) (1 / 2) 0 in
  exists T : R,
    forall deltas : list R,
      Forall (fun d => 0 <= d /\ d * rate FairyLights FORMED o <= 1) deltas ->
      T <= elapsed deltas ->
      distanceTo (currentPos (hold FairyLights FORMED deltas o)) (targetPos o)
      < 1 / 1000.
Proof.
  intros o.
  apply (proj1 formed_convergence FairyLights o (1 / 1000)).
  - cbn. lra.
  - lra.
Defined.

End Convergence.

(** ** Pool population: where the generators put the instances *)

Section PoolBounds.

Import Morph Pool.
Local Open Scope R_scope.

(** A point at distance [r] from the axis. *)
Lemma radial_polar (r theta py : R) :
  0 <= r -> radial (vec3 (r * cos theta) py (r * sin theta)) = r.
Proof.
  intros Hr. unfold radial. cbn [x z].
  replace (r * cos theta * (r * cos theta) + r * sin theta * (r * sin theta))
    with (r * r * (Rsqr (sin theta) + Rsqr (cos theta)))
    by (unfold Rsqr; ring).
  rewrite sin2_cos2, Rmult_1_r. now apply sqrt_square.
Qed.

(** The cone radius at the height drawn by [r]: 9 * (1 - r). *)
Lemma coneRadius_drawn (r : R) :
  coneRadius (r * TREE_height - TREE_height / 2) = 9 * (1 - r).
Proof. unfold coneRadius, TREE_height, TREE_radius. field. Qed.

Lemma onTree_radial (adjust : R -> R) (r4 r5 : R) :
  0 <= adjust (coneRadius (y (onTree adjust r4 r5))) ->
  radial (onTree adjust r4 r5) = adjust (coneRadius (y (onTree adjust r4 r5))).
Proof.
  unfold onTree. cbn [y]. intros H. apply radial_polar. exact H.
Qed.

Lemma onTree_height (adjust : R -> R) (r4 r5 : R) :
  draw r4 ->
  - (TREE_height / 2) <= y (onTree adjust r4 r5) < TREE_height / 2
  /\ 0 < coneRadius (y (onTree adjust r4 r5)) <= TREE_radius.
Proof.
  intros [H0 H1]. unfold onTree. cbn [y]. rewrite coneRadius_drawn.
  unfold TREE_height, TREE_radius. lra.
Qed.

Lemma chaosBox_bound (side r1 r2 r3 : R) :
  0 <= side -> draw r1 -> draw r2 -> draw r3 ->
  Rabs (x (chaosBox side r1 r2 r3)) <= side / 2
  /\ Rabs (y (chaosBox side r1 r2 r3)) <= side / 2
  /\ Rabs (z (chaosBox side r1 r2 r3)) <= side / 2.
Proof.
  intros Hs [A1 A2] [B1 B2] [C1 C2]. unfold chaosBox. cbn [x y z].
  repeat split; apply Rabs_le; split; nra.
Qed.

(** C6, as stated, fails.  The fairy light drawn at (1/2, 1/2, 1/2, 1/2, 0)
    aims at (4.8, 0, 0): at height 0 the cone has radius 4.5, and the
    target lies 0.3 outside it. *)
Lemma cone_bound_counterexample :
  let o := light (1 / 2) (1 / 2) (1 / 2) (1 / 2) 0 in
  targetPos o = vec3 4.8 0 0
  /\ coneRadius (y (targetPos o)) = 4.5
  /\ radial (targetPos o) = 4.8
  /\ ~ inCone (targetPos o).
Proof.
  intros o. subst o. rewrite light_sample. cbn [targetPos y].
  assert (Hc : coneRadius 0 = 4.5).
  { unfold coneRadius, TREE_height, TREE_radius. lra. }
  assert (Hr : radial (vec3 4.8 0 0) = 4.8).
  { unfold radial. cbn [x z].
    replace (4.8 * 4.8 + 0 * 0) with (4.8 * 4.8) by ring.
    apply sqrt_square. lra. }
  split; [reflexivity|]. split; [exact Hc|]. split; [exact Hr|].
  unfold inCone. cbn [y]. rewrite Hc, Hr. lra.
Qed.

(** C6, amended.  For draws in [0, 1):
    - a foliage point rests at the point of [random.inSphere] given to it
      (so within radius 25 of the origin when that point is) and aims at a
      point inside the cone of height 22 and base radius 9;
    - an element aims at a point inside the cone, at 0.95 of the cone
      radius from the axis;
    - an ornament aims at a point 0.5 outside the cone surface and a light
      at a point 0.3 outside it, so neither target is inside the cone;
    - every target height lies in [-11, 11);
    - the chaos position of an ornament lies in the cube of half side 35,
      that of an element or a light in the cube of half side 30, and the
      instance starts there. *)
Theorem pool_population_bounds :
  (forall (spherePoint : Vector3) (r1 r2 r3 : R),
      draw r1 -> draw r2 -> draw r3 ->
      fst (foliagePoint spherePoint r1 r2 r3) = spherePoint
      /\ (distanceTo spherePoint (vec3 0 0 0) <= 25 ->
          distanceTo (fst (foliagePoint spherePoint r1 r2 r3)) (vec3 0 0 0) <= 25)
      /\ inCone (snd (foliagePoint spherePoint r1 r2 r3))
      /\ - (TREE_height / 2) <= y (snd (foliagePoint spherePoint r1 r2 r3))
         < TREE_height / 2)
  /\ (forall r1 r2 r3 r4 r5 : R,
         draw r1 -> draw r2 -> draw r3 -> draw r4 -> draw r5 ->
         let o := element r1 r2 r3 r4 r5 in
         inCone (targetPos o)
         /\ radial (targetPos o) = coneRadius (y (targetPos o)) * 0.95
         /\ - (TREE_height / 2) <= y (targetPos o) < TREE_height / 2
         /\ Rabs (x (chaosPos o)) <= 30 /\ Rabs (y (chaosPos o)) <= 30
         /\ Rabs (z (chaosPos o)) <= 30
         /\ currentPos o = chaosPos o)
  /\ (forall r1 r2 r3 r4 r5 rw : R,
         draw r1 -> draw r2 -> draw r3 -> draw r4 -> draw r5 -> draw rw ->
         let o := ornament r1 r2 r3 r4 r5 rw in
         radial (targetPos o) = coneRadius (y (targetPos o)) + 0.5
         /\ ~ inCone (targetPos o)
         /\ - (TREE_height / 2) <= y (targetPos o) < TREE_height / 2
         /\ Rabs (x (chaosPos o)) <= 35 /\ Rabs (y (chaosPos o)) <= 35
         /\ Rabs (z (chaosPos o)) <= 35
         /\ currentPos o = chaosPos o)
  /\ (forall r1 r2 r3 r4 r5 : R,
         draw r1 -> draw r2 -> draw r3 -> draw r4 -> draw r5 ->
         let o := light r1 r2 r3 r4 r5 in
         radial (targetPos o) = coneRadius (y (targetPos o)) + 0.3
         /\ ~ inCone (targetPos o)
         /\ - (TREE_height / 2) <= y (targetPos o) < TREE_height / 2
         /\ Rabs (x (chaosPos o)) <= 30 /\ Rabs (y (chaosPos o)) <= 30
         /\ Rabs (z (chaosPos o)) <= 30
         /\ currentPos o = chaosPos o).
Proof.
  split; [|split; [|split]].
  - intros sp r1 r2 r3 [A1 A2] [B1 B2] [C1 C2]. cbn [foliagePoint fst snd].
    split; [reflexivity|]. split; [tauto|].
    unfold inCone, getTreePosition. cbn [y].
    rewrite coneRadius_drawn.
    replace (TREE_radius * (1 - (r1 * TREE_height - TREE_height / 2
                                 + TREE_height / 2) / TREE_height))
      with (9 * (1 - r1)) by (unfold TREE_radius, TREE_height; field).
    rewrite radial_polar by nra.
    unfold TREE_height. split; [nra|lra].
  - intros r1 r2 r3 r4 r5 D1 D2 D3 D4 D5 o. subst o.
    cbn [element targetPos chaosPos currentPos].
    destruct (onTree_height (fun c => c * 0.95) r4 r5 D4) as [Hy Hc].
    destruct (chaosBox_bound 60 r1 r2 r3) as [Hx [Hy' Hz]]; try assumption; [lra|].
    assert (Hr : radial (onTree (fun c => c * 0.95) r4 r5)
                 = coneRadius (y (onTree (fun c => c * 0.95) r4 r5)) * 0.95).
    { apply (onTree_radial (fun c => c * 0.95)). lra. }
    unfold inCone. rewrite Hr.
    repeat split; try lra; tauto.
  - intros r1 r2 r3 r4 r5 rw D1 D2 D3 D4 D5 Dw o. subst o.
    cbn [ornament targetPos chaosPos currentPos].
    destruct (onTree_height (fun c => c + 0.5) r4 r5 D4) as [Hy Hc].
    destruct (chaosBox_bound 70 r1 r2 r3) as [Hx [Hy' Hz]]; try assumption; [lra|].
    assert (Hr : radial (onTree (fun c => c + 0.5) r4 r5)
                 = coneRadius (y (onTree (fun c => c + 0.5) r4 r5)) + 0.5).
    { apply (onTree_radial (fun c => c + 0.5)). lra. }
    unfold inCone. rewrite Hr.
    repeat split; try lra; tauto.
  - intros r1 r2 r3 r4 r5 D1 D2 D3 D4 D5 o. subst o.
    cbn [light targetPos chaosPos currentPos].
    destruct (onTree_height (fun c => c + 0.3) r4 r5 D4) as [Hy Hc].
    destruct (chaosBox_bound 60 r1 r2 r3) as [Hx [Hy' Hz]]; try assumption; [lra|].
    assert (Hr : radial (onTree (fun c => c + 0.3) r4 r5)
                 = coneRadius (y (onTree (fun c => c + 0.3) r4 r5)) + 0.3).
    { apply (onTree_radial (fun c => c + 0.3)). lra. }
    unfold inCone. rewrite Hr.
    repeat split; try lra; tauto.
Qed.

Lemma pool_population_bounds_witness :
  let o := element (1 / 4) (1 / 2) (3 / 4) (1 / 2) (1 / 8) in
  inCone (targetPos o)
  /\ radial (targetPos o) = coneRadius (y (targetPos o)) * 0.95.
Proof.
  intros o.
  destruct (proj1 (proj2 pool_population_bounds)
              (1 / 4) (1 / 2) (3 / 4) (1 / 2) (1 / 8)) as [H1 [H2 _]];
    try (unfold draw; lra).
  split; [exact H1|exact H2].
Defined.

End PoolBounds.

(** * Further properties of the code

    ** Frames that throw, debug mode, and the order of pinch events *)

Section FrameFacts.

Import Gesture Frames.
Local Open Scope float_scope.

Lemma detect_none (l : list Landmark) :
  detectThreeFingerPinch l = None <-> (List.length l <= 12)%nat.
Proof.
  unfold detectThreeFingerPinch. split.
  - destruct (nth_error l 12) eqn:E12.
    + assert (nth_error l 12 <> None) by congruence.
      apply nth_error_Some in H.
      destruct (nth_error l 4) eqn:E4; [|apply nth_error_None in E4; lia].
      destruct (nth_error l 8) eqn:E8; [|apply nth_error_None in E8; lia].
      discriminate.
    + intros _. now apply nth_error_None in E12.
  - intros H.
    assert (E12 : nth_error l 12 = None) by (apply nth_error_None; lia).
    rewrite E12. destruct (nth_error l 4), (nth_error l 8); reflexivity.
Qed.

Lemma detect_some_cons (l : list Landmark) (b : bool) :
  detectThreeFingerPinch l = Some b ->
  (12 < List.length l)%nat /\ exists wrist rest, l = wrist :: rest.
Proof.
  intros H.
  assert (Hl : (12 < List.length l)%nat).
  { destruct (Nat.le_gt_cases (List.length l) 12) as [Hle|Hgt]; [|exact Hgt].
    apply detect_none in Hle. congruence. }
  split; [exact Hl|]. destruct l as [|w r]; [cbn in Hl; lia|eauto].
Qed.

(** The frame whose hand lacks a landmark of the pinch test. *)
Lemma frame_short_hand (dbg : bool) (l0 : list Landmark)
  (more : list (list Landmark)) (gs : list (list Category)) (pinching : bool) :
  detectThreeFingerPinch l0 = None ->
  frame (mkFrame dbg (mkResults (l0 :: more) gs)) pinching = ([], pinching, false).
Proof.
  intros H. unfold frame, predictWebcam. cbn [debug results landmarks].
  unfold bind at 1. rewrite H. reflexivity.
Qed.

(** The frame whose first ranked list is empty. *)
Lemma frame_no_top (dbg : bool) (l0 : list Landmark)
  (more : list (list Landmark)) (others : list (list Category))
  (pinching b : bool) :
  detectThreeFingerPinch l0 = Some b ->
  frame (mkFrame dbg (mkResults (l0 :: more) ([] :: others))) pinching
  = (pinchCallsOf dbg pinching b, b, false).
Proof.
  intros H. unfold frame, predictWebcam. cbn [debug results landmarks gestures].
  unfold bind at 1. rewrite H. cbn [defined].
  unfold bind at 1. rewrite pinchEdge_runs. cbn [isPinchingRef called app].
  reflexivity.
Qed.

Lemma frame_kind (f : Frame) (pinching : bool) : FrameKind f pinching.
Proof.
  destruct f as [dbg [[|l0 more] gs]].
  - apply NoHand; [reflexivity|apply frame_no_hand|reflexivity].
  - destruct (detectThreeFingerPinch l0) as [b|] eqn:Hd.
    + destruct (detect_some_cons l0 b Hd) as [Hl [wrist [rest ->]]].
      apply Nat.ltb_lt in Hl.
      destruct gs as [|[|top lower] others].
      * eapply (Whole _ _ b wrist rest more); [reflexivity|exact Hd| |].
        -- now apply frame_hand.
        -- unfold survives. cbn [results landmarks gestures]. now rewrite Hl.
      * eapply (NoTop _ _ b); [exact Hd|now apply frame_no_top|].
        unfold survives. cbn [results landmarks gestures]. now rewrite Hl.
      * eapply (Whole _ _ b wrist rest more); [reflexivity|exact Hd| |].
        -- now apply frame_hand.
        -- unfold survives. cbn [results landmarks gestures]. now rewrite Hl.
    + eapply ShortHand; [reflexivity|exact Hd|now apply frame_short_hand|].
      apply detect_none in Hd. unfold survives. cbn [results landmarks].
      apply Nat.ltb_ge in Hd. now rewrite Hd.
Qed.

Lemma commands_app (a b : list Callback) :
  commands (a ++ b) = commands a ++ commands b.
Proof. apply filter_app. Qed.

Lemma commands_pinch (dbg pinching b : bool) :
  commands (pinchCallsOf dbg pinching b) = map onPinch (pinchEvent pinching b).
Proof. destruct dbg, pinching, b; reflexivity. Qed.

Lemma commands_gesture (dbg b : bool) (gs : list (list Category)) :
  commands (gestureCallsIn dbg b gs)
  = match gs with
    | (top :: _) :: _ => map onGesture (modeCommand b top)
    | _ => []
    end.
Proof.
  destruct gs as [|[|top lower] others]; try reflexivity.
  unfold gestureCallsIn, gestureCallsOf, modeCommand. rewrite commands_app.
  destruct dbg, b, (0.4 <? score top); cbn [andb negb];
    destruct (String.eqb (categoryName top) "Open_Palm");
    destruct (String.eqb (categoryName top) "Closed_Fist"); reflexivity.
Qed.

(** X1.  Debug mode only adds status lines.  For any classifier results
    and any stored pinch state, the frame run with the debug flag set and
    the frame run without it call the same [onPinch], [onGesture] and
    [onMove] in the same order, leave the same pinch state, and both
    return or both throw. *)
Theorem debug_only_adds_status (r : Results) (pinching : bool) :
  commands (fst (fst (frame (mkFrame true r) pinching)))
  = commands (fst (fst (frame (mkFrame false r) pinching)))
  /\ snd (fst (frame (mkFrame true r) pinching))
     = snd (fst (frame (mkFrame false r) pinching))
  /\ snd (frame (mkFrame true r) pinching)
     = snd (frame (mkFrame false r) pinching).
Proof.
  destruct r as [[|l0 more] gs].
  - rewrite !frame_no_hand. repeat split.
  - destruct (detectThreeFingerPinch l0) as [b|] eqn:Hd.
    + destruct (detect_some_cons l0 b Hd) as [_ [wrist [rest ->]]].
      destruct gs as [|[|top lower] others].
      * rewrite !(frame_hand _ wrist rest more [] pinching b Hd eq_refl).
        cbn [fst snd]. rewrite !commands_app, !commands_pinch. repeat split.
      * rewrite !(frame_no_top _ _ more others pinching b Hd).
        cbn [fst snd]. rewrite !commands_pinch. repeat split.
      * rewrite !(frame_hand _ wrist rest more ((top :: lower) :: others)
                    pinching b Hd eq_refl).
        cbn [fst snd].
        rewrite !commands_app, !commands_pinch, !commands_gesture.
        repeat split.
    + rewrite !(frame_short_hand _ l0 more gs pinching Hd). repeat split.
Qed.

(** X2.  When a frame throws.  The frame body runs to its end, and so
    schedules the next frame, exactly on the frames without a hand and on
    those whose hand has at least 13 landmarks and whose first ranked list
    is absent or not empty.  A frame that runs to its end calls [onMove]
    exactly once; a frame that throws calls no [onMove] at all (the
    rotation speed keeps its last value), though it may already have
    called [onPinch]. *)
Theorem frame_throws_or_moves (f : Frame) (pinching : bool) :
  snd (frame f pinching) = survives f
  /\ List.length (moveCalls (fst (fst (frame f pinching))))
     = (if survives f then 1 else 0)%nat
  /\ (landmarks (results f) = [] ->
      snd (fst (frame f pinching)) = pinching)
  /\ (forall b : bool,
         pinchOf f = Some b ->
         snd (fst (frame f pinching)) = b
         /\ pinchCalls (fst (fst (frame f pinching))) = pinchEvent pinching b).
Proof.
  destruct (frame_kind f pinching)
    as [E R S|l0 more E P R S|b P R S|b wrist rest more E P R S];
    rewrite R, S; cbn [fst snd].
  - split; [reflexivity|]. split; [now destruct (debug f)|].
    split; [reflexivity|]. intros b Hb. unfold pinchOf in Hb.
    rewrite E in Hb. discriminate.
  - split; [reflexivity|]. split; [reflexivity|].
    split; [intros H; congruence|]. intros b Hb. congruence.
  - split; [reflexivity|]. split; [now rewrite pinchCallsOf_move|].
    split; [intros H; unfold pinchOf in P; rewrite H in P; discriminate|].
    intros b' Hb. assert (b' = b) by congruence. subst.
    split; [reflexivity|apply pinchCallsOf_pinch].
  - split; [reflexivity|]. split.
    + rewrite !moveCalls_app, pinchCallsOf_move, gestureCallsIn_move. reflexivity.
    + split; [intros H; congruence|].
      intros b' Hb. assert (b' = b) by congruence. subst.
      split; [reflexivity|].
      rewrite !pinchCalls_app, pinchCallsOf_pinch, gestureCallsIn_pinch.
      cbn. apply app_nil_r.
Qed.

Lemma frame_alive (f : Frame) (pinching : bool) :
  snd (frame f pinching) = survives f.
Proof.
  destruct (frame_kind f pinching)
    as [E R S|l0 more E P R S|b P R S|b wrist rest more E P R S];
    now rewrite R, S.
Qed.

(** What a frame, of any kind, does to the pinch state. *)
Lemma frame_pinch (f : Frame) (pinching : bool) :
  (pinchCalls (fst (fst (frame f pinching))) = []
   /\ snd (fst (frame f pinching)) = pinching)
  \/ (exists b : bool,
         pinchCalls (fst (fst (frame f pinching))) = pinchEvent pinching b
         /\ snd (fst (frame f pinching)) = b).
Proof.
  destruct (frame_kind f pinching)
    as [E R S|l0 more E P R S|b P R S|b wrist rest more E P R S];
    rewrite R; cbn [fst snd].
  - left. split; [now destruct (debug f)|reflexivity].
  - left. split; reflexivity.
  - right. exists b. split; [apply pinchCallsOf_pinch|reflexivity].
  - right. exists b. split; [|reflexivity].
    rewrite !pinchCalls_app, pinchCallsOf_pinch, gestureCallsIn_pinch.
    cbn. apply app_nil_r.
Qed.

(** X3.  The loop dies at the first frame that throws.  If the frames
    before [bad] all run to their end and [bad] throws, the frames after
    it are never processed: the calls made and the pinch state left are
    those of the run that ends with [bad]. *)
Theorem loop_stops_at_throw (good : list Frame) (bad : Frame)
  (rest : list Frame) (stored : bool) :
  Forall (fun f => survives f = true) good ->
  survives bad = false ->
  loop (good ++ bad :: rest) stored = loop (good ++ [bad]) stored
  /\ List.length (fst (loop (good ++ bad :: rest) stored))
     = S (List.length good).
Proof.
  intros Hgood Hbad. revert stored.
  induction Hgood as [|f good Hf _ IH]; intros stored.
  - cbn [app loop List.length].
    pose proof (frame_alive bad stored) as Ha. rewrite Hbad in Ha.
    destruct (frame bad stored) as [[calls p'] alive]. cbn [snd] in Ha.
    subst alive. split; reflexivity.
  - cbn [app loop List.length].
    pose proof (frame_alive f stored) as Ha. rewrite Hf in Ha.
    destruct (frame f stored) as [[calls p'] alive]. cbn [snd] in Ha.
    subst alive. destruct (IH p') as [IH1 IH2]. rewrite <- IH1.
    destruct (loop (good ++ bad :: rest) p') as [later final].
    cbn [fst List.length] in *. split; [reflexivity|now rewrite IH2].
Qed.

Lemma loop_stops_at_throw_witness :
  loop ([handFrame true; noHandFrame]
          ++ mkFrame false (mkResults [spreadHand 0.5] [[]])
          :: [handFrame true; handFrame false]) false
  = loop ([handFrame true; noHandFrame]
            ++ [mkFrame false (mkResults [spreadHand 0.5] [[]])]) false
  /\ List.length
       (fst (loop ([handFrame true; noHandFrame]
                     ++ mkFrame false (mkResults [spreadHand 0.5] [[]])
                     :: [handFrame true; handFrame false]) false))
     = 3%nat.
Proof.
  apply (loop_stops_at_throw [handFrame true; noHandFrame]
           (mkFrame false (mkResults [spreadHand 0.5] [[]]))
           [handFrame true; handFrame false] false).
  - repeat constructor.
  - reflexivity.
Defined.

Lemma alternates_event (stored b : bool) (later : list bool) :
  alternates (negb stored) (pinchEvent stored b ++ later)
  = alternates (negb b) later.
Proof. destruct stored, b; reflexivity. Qed.

(** X4.  Pinch events alternate.  Over any run of frames, well formed or
    not, from any stored pinch state, the [onPinch] calls of the loop
    taken in order are a start, an end, a start, ... beginning with the
    opposite of the stored state: the loop never calls [onPinch(true)]
    twice without an [onPinch(false)] in between, nor the reverse. *)
Theorem pinch_events_alternate (frames : list Frame) (stored : bool) :
  alternates (negb stored)
    (List.concat (map pinchCalls (fst (loop frames stored)))) = true.
Proof.
  revert stored. induction frames as [|f rest IH]; intros stored.
  - reflexivity.
  - cbn [loop].
    destruct (frame_pinch f stored) as [[Hc Hp]|[b [Hc Hp]]];
      destruct (frame f stored) as [[calls p'] alive];
      cbn [fst snd] in Hc, Hp; subst p'.
    + destruct alive.
      * specialize (IH stored). destruct (loop rest stored) as [later final].
        cbn [fst map List.concat] in *. now rewrite Hc.
      * cbn [fst map List.concat]. now rewrite Hc.
    + destruct alive.
      * specialize (IH b). destruct (loop rest b) as [later final].
        cbn [fst map List.concat] in *. now rewrite Hc, alternates_event.
      * cbn [fst map List.concat]. rewrite Hc, alternates_event. reflexivity.
Qed.

End FrameFacts.

(** ** The page over any run of frames and clicks *)

Section PageFacts.

Import Gesture Frames App Pages.
Local Open Scope R_scope.

(** The photo [handlePinch] leaves depends on the photo shown only. *)
Lemma handlePinch_photo (random : R) (e : bool) (s1 s2 : State) :
  selectedPhoto s1 = selectedPhoto s2 ->
  selectedPhoto (handlePinch random e s1) = selectedPhoto (handlePinch random e s2).
Proof.
  intros H. unfold handlePinch. rewrite H.
  destruct (e && negb (truthy (selectedPhoto s2)))%bool; [reflexivity|].
  destruct (negb e && truthy (selectedPhoto s2))%bool; [reflexivity|exact H].
Qed.

Lemma deliver_one_pinch (random : R) (e : bool) (calls : list Callback) (s : State) :
  pinchCalls calls = [e] ->
  selectedPhoto (deliver random calls s)
  = selectedPhoto (handlePinch random e s).
Proof.
  revert s. induction calls as [|c rest IH]; intros s H; [discriminate|].
  cbn [deliver fold_left]. fold (deliver random rest (dispatch random c s)).
  destruct c as [m|v|t|e']; cbn [pinchCalls flat_map app] in H;
    fold (pinchCalls rest) in H.
  - rewrite (IH _ H). now apply handlePinch_photo.
  - rewrite (IH _ H). now apply handlePinch_photo.
  - rewrite (IH _ H). now apply handlePinch_photo.
  - injection H as -> Hrest. cbn [dispatch]. now apply deliver_no_pinch.
Qed.

(** The photo after the pinch events of one frame. *)
Lemma deliver_event (random : R) (stored b : bool) (calls : list Callback)
  (s : State) :
  pinchCalls calls = pinchEvent stored b ->
  selectedPhoto (deliver random calls s)
  = match pinchEvent stored b with
    | [e] => selectedPhoto (handlePinch random e s)
    | _ => selectedPhoto s
    end.
Proof.
  intros H. destruct stored, b; cbn [pinchEvent] in *;
    first [now apply deliver_no_pinch | now apply deliver_one_pinch].
Qed.

Lemma at_index_In {A} (l : list A) (i : Z) (a : A) :
  at_index l i = Some a -> In a l.
Proof.
  unfold at_index. destruct (i <? 0)%Z; [discriminate|]. apply nth_error_In.
Qed.

Lemma act_settled (a : Action) (p : Page) : settled p -> settled (act a p).
Proof.
  intros [H1 H2]. destruct a as [f random| |].
  - cbn [act]. destruct (running p); [|split; assumption].
    destruct (frame_pinch f (pinching p)) as [[Hc Hp]|[b [Hc Hp]]];
      destruct (frame f (pinching p)) as [[calls p'] alive];
      cbn [fst snd] in Hc, Hp; subst p'; unfold settled;
      cbn [pinching state].
    + rewrite (deliver_no_pinch random calls (state p) Hc). split; assumption.
    + rewrite (deliver_event random (pinching p) b calls (state p) Hc).
      destruct (pinching p) eqn:Ep, b; cbn [pinchEvent].
      * split; [reflexivity|exact H2].
      * unfold handlePinch. cbn [andb negb].
        destruct (truthy (selectedPhoto (state p))) eqn:Et.
        -- cbn [selectedPhoto setSelectedPhoto truthy].
           split; [discriminate|discriminate].
        -- rewrite Et. split; [discriminate|exact H2].
      * unfold handlePinch. cbn [andb negb].
        destruct (truthy (selectedPhoto (state p))) eqn:Et.
        -- cbn [andb negb]. split; [reflexivity|exact H2].
        -- cbn [selectedPhoto setSelectedPhoto].
           split; [reflexivity|]. intros photo Hph.
           now apply at_index_In in Hph.
      * split; [exact H1|exact H2].
  - unfold settled. cbn. split; discriminate.
  - unfold settled. cbn [act pinching state toggleScene setSceneState selectedPhoto].
    split; assumption.
Qed.

(** X5.  What the page never shows.  From the start of the page, after any
    run of processed frames (well formed or not, whatever the random
    draws) and clicks: a photo is displayed only while the stored pinch
    state is true, and the photo displayed is one of the configured
    photos. *)
Theorem photo_shown_only_while_pinching (actions : list Action) :
  (truthy (selectedPhoto (state (run actions start))) = true ->
   pinching (run actions start) = true)
  /\ (forall photo : string,
         selectedPhoto (state (run actions start)) = Some photo ->
         In photo bodyPhotoPaths).
Proof.
  change (settled (run actions start)).
  assert (H : settled start) by (split; discriminate).
  revert H. generalize start. induction actions as [|a rest IH]; intros p H.
  - exact H.
  - cbn [run fold_left]. apply IH. now apply act_settled.
Qed.

Lemma act_holding (a : Action) (p : Page) :
  holding a -> running p = true -> pinching p = true ->
  pinching (act a p) = true /\ running (act a p) = true
  /\ selectedPhoto (state (act a p)) = selectedPhoto (state p).
Proof.
  destruct a as [f random| |]; cbn [holding]; try tauto.
  intros [Hw Hp] Hrun Hpin. cbn [act]. rewrite Hrun, Hpin.
  destruct (frame_wellFormed f true Hw) as [calls [Hf Hc]]. rewrite Hf.
  cbn [pinching running state].
  destruct (pinchOf f) as [[|]|]; try congruence.
  - split; [reflexivity|]. split; [reflexivity|now apply deliver_no_pinch].
  - split; [reflexivity|]. split; [reflexivity|now apply deliver_no_pinch].
Qed.

(** X6.  A dismissal sticks while the pinch is held.  Once the user has
    closed the photo with the fingers still pinched, no run of frames on
    which the hand keeps pinching (or is lost) shows a photo again: the
    pinch must be released first. *)
Theorem dismissal_sticks (actions : list Action) (p : Page) :
  Forall holding actions -> running p = true -> pinching p = true ->
  selectedPhoto (state (run actions (act ClosePhoto p))) = None
  /\ pinching (run actions (act ClosePhoto p)) = true.
Proof.
  intros H Hrun Hpin.
  assert (G : forall q : Page,
             running q = true -> pinching q = true ->
             selectedPhoto (state (run actions q)) = selectedPhoto (state q)
             /\ pinching (run actions q) = true).
  { induction H as [|a rest Ha _ IH]; intros q Hr Hq; [split; auto|].
    cbn [run fold_left]. fold (run rest (act a q)).
    destruct (act_holding a q Ha Hr Hq) as [A1 [A2 A3]].
    destruct (IH (act a q) A2 A1) as [B1 B2]. rewrite B1, A3. auto. }
  destruct (G (act ClosePhoto p)) as [G1 G2]; auto.
Qed.

Lemma dismissal_sticks_witness :
  let opened := act (Inference (handFrame true) (1 / 2)) start in
  selectedPhoto
    (state (run [Inference (handFrame true) (1 / 3); Inference noHandFrame 0;
                 Inference (handFrame true) (2 / 3)]
                (act ClosePhoto opened))) = None
  /\ pinching
       (run [Inference (handFrame true) (1 / 3); Inference noHandFrame 0;
             Inference (handFrame true) (2 / 3)]
            (act ClosePhoto opened)) = true.
Proof.
  intros opened.
  assert (Hp : pinching opened = true /\ running opened = true).
  { subst opened. cbn [act start pinching running state].
    replace (frame (handFrame true) false)
      with ([onPinch true; onMove 0%float], true, true)
      by (vm_compute; reflexivity).
    split; reflexivity. }
  apply (dismissal_sticks
           [Inference (handFrame true) (1 / 3); Inference noHandFrame 0;
            Inference (handFrame true) (2 / 3)] opened).
  - repeat constructor; cbn [holding]; try reflexivity;
      (vm_compute; discriminate).
  - exact (proj2 Hp).
  - exact (proj1 Hp).
Defined.

(** A speed outside the dead zone is not zero. *)
Lemma outside_dead_zone_nonzero (v : float) :
  (0.01 <? PrimFloat.abs v)%float = true -> (v =? 0)%float = false.
Proof.
  intros H. destruct (v =? 0)%float eqn:E; [|reflexivity].
  rewrite eqb_spec in E. rewrite ltb_spec, abs_spec in H.
  change (Prim2SF 0) with (S754_zero false) in E.
  destruct (Prim2SF v) as [sv| sv| |sv mv ev]; cbn in E, H;
    first [discriminate | destruct sv; discriminate].
Qed.

Lemma deliver_app (random : R) (a b : list Callback) (s : State) :
  deliver random (a ++ b) s = deliver random b (deliver random a s).
Proof. apply fold_left_app. Qed.

(** X7.  Steering and auto-rotation.  After a processed frame that runs to
    its end, the rotation speed of the page is either exactly 0 or has a
    magnitude above 0.01, never a value inside the dead zone; and the
    scene auto-rotates ([rotationSpeed === 0 && sceneState === 'FORMED'])
    exactly when the mode the frame leaves is FORMED and the frame has no
    hand or a hand whose wrist is inside the dead zone. *)
Theorem steering_or_auto_rotate (f : Frame) (random : R) (p : Page) :
  running p = true -> survives f = true ->
  let s' := state (act (Inference f random) p) in
  (rotationSpeed s' = 0%float
   \/ (0.01 <? PrimFloat.abs (rotationSpeed s'))%float = true)
  /\ rotationSpeed s'
     = match landmarks (results f) with
       | (wrist :: _) :: _ => rotationOf wrist
       | _ => 0%float
       end
  /\ autoRotate s'
     = (SceneState_eqb (sceneState s') FORMED && negb (steers f))%bool.
Proof.
  intros Hrun Hs s'. subst s'. cbn [act]. rewrite Hrun.
  destruct (frame_kind f (pinching p))
    as [E R S|l0 more E P R S|b P R S|b wrist rest more E P R S];
    try congruence; rewrite R; cbn [state].
  - assert (Hr : rotationSpeed
                   (deliver random
                      (onMove 0 :: (if debug f
                                    then [onStatus "AI READY: NO HAND"] else []))
                      (state p)) = 0%float) by (destruct (debug f); reflexivity).
    unfold autoRotate, steers. rewrite Hr, E.
    split; [now left|]. split; [reflexivity|].
    now rewrite andb_true_r.
  - rewrite app_assoc, deliver_app.
    cbn [deliver fold_left dispatch rotationSpeed setRotationSpeed].
    unfold autoRotate, steers.
    cbn [rotationSpeed sceneState setRotationSpeed]. rewrite E.
    unfold rotationOf.
    destruct (0.01 <? PrimFloat.abs (speedOf wrist))%float eqn:Hz.
    + split; [now right|]. split; [reflexivity|].
      rewrite (outside_dead_zone_nonzero _ Hz). cbn [andb negb].
      now rewrite andb_false_r.
    + split; [now left|]. split; [reflexivity|].
      cbn [negb]. now rewrite andb_true_r.
Qed.

Lemma steering_or_auto_rotate_witness :
  let s' := state (act (Inference
                          (classifiedFrame false "Closed_Fist" 0.9) 0) start) in
  sceneState s' = FORMED /\ rotationSpeed s' = 0%float /\ autoRotate s' = true.
Proof.
  intros s'.
  destruct (steering_or_auto_rotate
              (classifiedFrame false "Closed_Fist" 0.9) 0 start
              eq_refl eq_refl) as [_ [H2 H3]].
  fold s' in H2, H3.
  assert (Hm : sceneState s' = FORMED).
  { subst s'. cbn [act start running pinching state].
    replace (frame (classifiedFrame false "Closed_Fist" 0.9) false)
      with ([onGesture FORMED; onMove 0%float], false, true)
      by (vm_compute; reflexivity).
    reflexivity. }
  split; [exact Hm|]. split.
  - rewrite H2. vm_compute. reflexivity.
  - rewrite H3, Hm. vm_compute. reflexivity.
Defined.

Lemma handlePinch_sceneState (random : R) (e : bool) (s : State) :
  sceneState (handlePinch random e s) = sceneState s.
Proof.
  unfold handlePinch.
  destruct (e && negb (truthy (selectedPhoto s)))%bool; [reflexivity|].
  destruct (negb e && truthy (selectedPhoto s))%bool; reflexivity.
Qed.

Lemma deliver_sceneState (random : R) (calls : list Callback) (s : State) :
  sceneState (deliver random calls s) = last (gestureCalls calls) (sceneState s).
Proof.
  revert s. induction calls as [|c rest IH]; intros s; [reflexivity|].
  cbn [deliver fold_left]. fold (deliver random rest (dispatch random c s)).
  rewrite IH. destruct c as [m|v|t|e]; cbn [gestureCalls flat_map app dispatch];
    fold (gestureCalls rest); cbn [sceneState setRotationSpeed setAiStatus];
    try reflexivity.
  - cbn [setSceneState sceneState].
    destruct (gestureCalls rest) as [|g gs]; [reflexivity|].
    change (last (m :: g :: gs) (sceneState s)) with (last (g :: gs) (sceneState s)).
    clear. revert g. induction gs as [|h gs IHg]; intros g; [reflexivity|].
    change (last (g :: h :: gs) m) with (last (h :: gs) m).
    change (last (g :: h :: gs) (sceneState s)) with (last (h :: gs) (sceneState s)).
    apply IHg.
  - now rewrite handlePinch_sceneState.
Qed.

Lemma gestureCallsIn_gesture (dbg b : bool) (gs : list (list Category)) :
  gestureCalls (gestureCallsIn dbg b gs)
  = match gs with
    | (top :: _) :: _ => modeCommand b top
    | _ => []
    end.
Proof.
  destruct gs as [|[|top lower] others]; try reflexivity.
  apply gestureCallsOf_gesture.
Qed.

(** X19.  What changes the scene mode.  A processed frame, of any kind,
    leaves the scene mode as the page had it unless its body reaches the
    gesture block with a top classification that is a confident
    "Open_Palm" or "Closed_Fist" with no pinch in the frame; then the mode
    is CHAOS or FORMED whatever it was.  So a frame without a hand, a
    frame with a pinch, and a frame that throws never change the mode. *)
Theorem scene_mode_after_frame (f : Frame) (random : R) (p : Page) :
  running p = true ->
  sceneState (state (act (Inference f random) p))
  = last (commandOf f) (sceneState (state p))
  /\ (landmarks (results f) = [] -> commandOf f = [])
  /\ (pinchOf f = Some true -> commandOf f = [])
  /\ (pinchOf f = None -> commandOf f = []).
Proof.
  intros Hrun. split.
  - cbn [act]. rewrite Hrun. unfold commandOf.
    destruct (frame_kind f (pinching p))
      as [E R S|l0 more E P R S|b P R S|b wrist rest more E P R S];
      rewrite R; cbn [state]; rewrite deliver_sceneState.
    + unfold pinchOf. rewrite E. now destruct (debug f).
    + now rewrite P.
    + rewrite P, pinchCallsOf_gesture.
      unfold survives in S. unfold pinchOf in P.
      destruct (landmarks (results f)) as [|l0 more]; [discriminate|].
      destruct (gestures (results f)) as [|[|top lower] others];
        try reflexivity.
      rewrite andb_true_r in S. apply Nat.ltb_ge in S.
      apply detect_none in S. congruence.
    + rewrite P, !gestureCalls_app, pinchCallsOf_gesture, gestureCallsIn_gesture.
      cbn [app gestureCalls flat_map]. rewrite app_nil_r.
      now destruct (gestures (results f)) as [|[|top lower] others].
  - unfold commandOf, pinchOf. split; [intros ->; reflexivity|]. split.
    + intros ->. destruct (gestures (results f)) as [|[|top lower] others];
        reflexivity.
    + intros ->. reflexivity.
Qed.

Lemma scene_mode_after_frame_witness :
  sceneState (state (act (Inference (classifiedFrame true "Closed_Fist" 0.99) 0)
                         start)) = CHAOS.
Proof.
  destruct (scene_mode_after_frame
              (classifiedFrame true "Closed_Fist" 0.99) 0 start eq_refl)
    as [H [_ [H3 _]]].
  rewrite H, H3; [reflexivity|]. vm_compute. reflexivity.
Defined.

End PageFacts.

(** ** Every run of [setup] *)

Section SetupFacts.

Import Setup.
Local Open Scope string_scope.

Ltac setup_cases w :=
  unfold runSetup, setup, tryCatch, andThen, onStatus, await, createWithDelegate,
    startPredicting, throw, pure, emptyRun;
  destruct (forVisionTasks w) as [|visionError];
  destruct (createFromOptions w GPU) as [|gpuError];
  destruct (createFromOptions w CPU) as [|cpuError];
  destruct (mediaDevices w);
  destruct (getUserMedia w) as [|cameraError];
  destruct (videoMounted w);
  cbn [statuses creations gestureRecognizer predicting app].

(** X8.  No retry from CPU.  When the preferred delegate is CPU, the GPU
    is never tried: the recognizer is created at most once, on CPU, and if
    that creation fails the failure is reported at once as "ERROR: " and
    its message ("MODEL FAILED" for an empty message), no recognizer is
    set and inference never starts. *)
Theorem cpu_preferred_no_retry (w : World) :
  (creations (runSetup CPU w) = [] \/ creations (runSetup CPU w) = [CPU])
  /\ (forall cpuError : string,
         forVisionTasks w = Resolves ->
         createFromOptions w CPU = Rejects cpuError ->
         creations (runSetup CPU w) = [CPU]
         /\ statuses (runSetup CPU w)
            = ["DOWNLOADING AI...";
               "ERROR: " ++ (if String.eqb cpuError "" then "MODEL FAILED"
                             else cpuError)]
         /\ gestureRecognizer (runSetup CPU w) = None
         /\ predicting (runSetup CPU w) = false).
Proof.
  split.
  - setup_cases w; auto.
  - intros e Hv Hc. unfold runSetup, setup, tryCatch, andThen, onStatus, await,
      createWithDelegate, startPredicting, throw, pure, emptyRun.
    rewrite Hv, Hc. cbn [statuses creations gestureRecognizer predicting app].
    repeat split.
Qed.

Lemma cpu_preferred_no_retry_witness :
  let w := mkWorld Resolves (fun _ => Rejects "") true Resolves true in
  creations (runSetup CPU w) = [CPU]
  /\ statuses (runSetup CPU w) = ["DOWNLOADING AI..."; "ERROR: MODEL FAILED"]
  /\ gestureRecognizer (runSetup CPU w) = None
  /\ predicting (runSetup CPU w) = false.
Proof.
  intros w.
  exact (proj2 (cpu_preferred_no_retry w) "" eq_refl eq_refl).
Defined.



End SetupFacts.

(** ** The rate limiter *)

Section LimiterFacts.

Import Limiter.
Local Open Scope float_scope.

Lemma tick_lastInferenceMs (t : Tick) (c : Timer) :
  lastInferenceMs (tick t c)
  = if infers t c then nowMs t else lastInferenceMs c.
Proof.
  unfold tick. destruct (infers t c); [|reflexivity].
  destruct (differs (videoWidth t) (lastVideoWidth c)
            || differs (videoHeight t) (lastVideoHeight c))%bool;
    destruct (debug t && context2d t)%bool; reflexivity.
Qed.

(** X11.  The inference rate is bounded.  Over any run of calls of
    [predictWebcam] at one frame-rate setting, from any state of the
    limiter, each clock value at which the classifier runs is at least
    [intervalMs] after the previous one (and the first after the stored
    [lastInferenceMs]), by the very comparison [>=] of the code, however
    often [requestAnimationFrame] calls; a call that does not infer
    leaves the limiter and the canvas as they are. *)
Theorem inference_rate_bounded (fps : float) (ticks : list Tick) (c : Timer) :
  Forall (fun t => maxFps t = fps) ticks ->
  spaced (intervalMs fps) (lastInferenceMs c) (inferenceTimes ticks c) = true
  /\ (forall t : Tick, infers t c = false -> tick t c = c).
Proof.
  intros H. split.
  - revert c. induction H as [|t rest Ht _ IH]; intros c; [reflexivity|].
    cbn [inferenceTimes]. specialize (IH (tick t c)).
    rewrite tick_lastInferenceMs in IH.
    destruct (infers t c) eqn:E.
    + cbn [spaced]. rewrite IH, andb_true_r.
      unfold infers in E. apply andb_prop in E as [_ E].
      apply andb_prop in E as [_ E]. unfold shouldInfer in E. now rewrite Ht in E.
    + exact IH.
  - intros t E. unfold tick. now rewrite E.
Qed.

Lemma inference_rate_bounded_witness :
  let t (ms : float) := mkTick true ms 24 960 540 false true in
  inferenceTimes [t 1000; t 1016; t 1033; t 1050; t 1066; t 1083; t 1100]
                 initialTimer
  = [1000; 1050; 1100]
  /\ spaced (intervalMs 24) 0
       (inferenceTimes [t 1000; t 1016; t 1033; t 1050; t 1066; t 1083; t 1100]
                       initialTimer) = true.
Proof.
  intros t. split; [vm_compute; reflexivity|].
  apply (proj1 (inference_rate_bounded 24
                  [t 1000; t 1016; t 1033; t 1050; t 1066; t 1083; t 1100]
                  initialTimer (ltac:(repeat constructor)))).
Defined.

End LimiterFacts.

(** ** The quality preset across restarts *)

Section QualityFacts.

Import Quality.
Local Open Scope string_scope.

Lemma lookup_filter_other (key other : string) (l : list (string * string)) :
  other <> key ->
  lookup other (filter (fun kv => negb (String.eqb (fst kv) key)) l)
  = lookup other l.
Proof.
  intros Hne. induction l as [|[k v] rest IH]; [reflexivity|].
  cbn [filter fst lookup]. destruct (String.eqb_spec k key) as [->|Hk].
  - cbn [negb]. rewrite IH. destruct (String.eqb_spec key other); congruence.
  - cbn [negb lookup]. now rewrite IH.
Qed.

Lemma initialQuality_persist (q : QualityPreset) (s : Storage)
  (navigator : option Navigator) :
  accessible s = true -> full s = false ->
  initialQuality (persist q s) navigator = q.
Proof.
  intros Ha Hf. unfold initialQuality, persist, setItem, getItem.
  rewrite Ha, Hf. cbn [andb negb accessible items lookup].
  rewrite String.eqb_refl. destruct q; reflexivity.
Qed.

(** X12.  The quality preset survives a restart.  With a [localStorage]
    that can be read and written, the preset the page persists is the
    preset the next start reads back, whatever was stored before and
    whatever the device then reports; persisting touches no other key;
    and after a session of any number of clicks on the quality button the
    next start resumes with the preset the session ended on. *)
Theorem quality_round_trip (s : Storage) :
  accessible s = true -> full s = false ->
  (forall (q : QualityPreset) (navigator : option Navigator),
      initialQuality (persist q s) navigator = q)
  /\ (forall (q : QualityPreset) (other : string),
         other <> QUALITY_STORAGE_KEY ->
         getItem other (persist q s) = getItem other s)
  /\ (forall (clicks : nat) (q : QualityPreset) (navigator : option Navigator),
         initialQuality (snd (session clicks q s)) navigator
         = fst (session clicks q s)
         /\ fst (session clicks q s) = Nat.iter clicks toggle q).
Proof.
  intros Ha Hf. split; [|split].
  - intros q nav. now apply initialQuality_persist.
  - intros q other Hne. unfold persist, setItem, getItem.
    rewrite Ha, Hf. cbn [andb negb accessible items lookup].
    destruct (String.eqb_spec QUALITY_STORAGE_KEY other) as [E|_];
      [congruence|].
    now rewrite lookup_filter_other.
  - intros clicks. revert s Ha Hf.
    induction clicks as [|n IH]; intros s Ha Hf q nav.
    + cbn [session fst snd Nat.iter].
      split; [now apply initialQuality_persist|reflexivity].
    + cbn [session].
      assert (Ha' : accessible (persist q s) = true).
      { unfold persist, setItem. now rewrite Ha, Hf. }
      assert (Hf' : full (persist q s) = false).
      { unfold persist, setItem. now rewrite Ha, Hf. }
      destruct (IH (persist q s) Ha' Hf' (toggle q) nav) as [I1 I2].
      split; [exact I1|]. rewrite I2. symmetry. apply Nat.iter_succ_r.
Qed.

Lemma quality_round_trip_witness :
  let s := mkStorage true false
             [("theme", "dark"); (QUALITY_STORAGE_KEY, "MEDIUM")] in
  initialQuality (persist LOW s) (Some (mkNavigator (Some 8%float) (Some 16%float)))
  = LOW
  /\ getItem "theme" (persist LOW s) = Some (Some "dark").
Proof.
  intros s.
  destruct (quality_round_trip s eq_refl eq_refl) as [H1 [H2 _]].
  split; [apply H1|]. rewrite H2; [reflexivity|discriminate].
Defined.

(** X13.  Without storage the choice is not remembered.  When
    [localStorage] cannot be reached, or refuses the write, persisting
    changes nothing and never throws; a start that finds no valid stored
    preset (storage unreachable, key absent, or a value other than "HIGH"
    and "LOW") takes the detected one: LOW when the device reports at most
    4 GB of memory or at most 4 cores (8 cores are assumed when none are
    reported), HIGH otherwise, and HIGH when detection itself throws. *)
Theorem quality_without_storage (s : Storage) (navigator : option Navigator) :
  ((accessible s = false \/ full s = true) ->
   forall q : QualityPreset, persist q s = s)
  /\ ((getItem QUALITY_STORAGE_KEY s <> Some (Some "HIGH")
       /\ getItem QUALITY_STORAGE_KEY s <> Some (Some "LOW")) ->
      initialQuality s navigator
      = match navigator with
        | None => HIGH
        | Some n =>
            if (match deviceMemory n with
                | Some mem => (mem <=? 4)%float
                | None => false
                end
                || (match hardwareConcurrency n with
                    | Some c => c
                    | None => 8%float
                    end <=? 4)%float)%bool
            then LOW else HIGH
        end).
Proof.
  split.
  - intros H q. unfold persist, setItem.
    destruct H as [-> | ->]; [reflexivity|now rewrite andb_false_r].
  - intros [H1 H2]. unfold initialQuality.
    destruct (getItem QUALITY_STORAGE_KEY s) as [[v|]|].
    + destruct (String.eqb_spec v "HIGH") as [->|_]; [congruence|].
      destruct (String.eqb_spec v "LOW") as [->|_]; [congruence|].
      destruct navigator; reflexivity.
    + destruct navigator; reflexivity.
    + destruct navigator; reflexivity.
Qed.

Lemma quality_without_storage_witness :
  let s := mkStorage false false [(QUALITY_STORAGE_KEY, "HIGH")] in
  persist LOW s = s
  /\ initialQuality s (Some (mkNavigator (Some 4%float) None)) = LOW.
Proof.
  intros s.
  destruct (quality_without_storage s (Some (mkNavigator (Some 4%float) None)))
    as [H1 H2].
  split; [apply H1; now left|].
  rewrite H2; [reflexivity|split; discriminate].
Defined.

End QualityFacts.

(** ** Cross-fade, overshoot, dispersal, the foliage shader and the star *)

Section VisualFacts.

Import Morph Visuals.
Local Open Scope R_scope.

(** [damp] with a rate and a delta that are not negative stays between
    the value and the goal. *)
Lemma damp_unit (u goal lambda dt : R) :
  0 <= lambda -> 0 <= dt -> 0 <= u <= 1 -> 0 <= goal <= 1 ->
  0 <= damp u goal lambda dt <= 1.
Proof.
  intros Hl Hd Hu Hg. unfold damp, lerp1.
  assert (He : 0 < exp (- lambda * dt) <= 1).
  { split; [apply exp_pos|].
    rewrite <- exp_0. destruct (Req_dec (lambda * dt) 0) as [E|N].
    - replace (- lambda * dt) with 0 by lra. lra.
    - left. apply exp_increasing. nra. }
  nra.
Qed.

Lemma morphRun_unit (frames : list (SceneState * R)) (morph : R) :
  Forall (fun f => 0 <= snd f) frames -> 0 <= morph <= 1 ->
  0 <= morphRun frames morph <= 1.
Proof.
  intros H. revert morph. induction H as [|[m d] rest Hd _ IH]; intros morph Hm.
  - exact Hm.
  - cbn [morphRun]. apply IH. unfold morphFrame. cbn [snd] in Hd.
    apply damp_unit; try lra. destruct (isFormed m); lra.
Qed.

Lemma foliageRun_unit (frames : list (SceneState * R)) (f : FoliageMaterial) :
  Forall (fun fr => 0 <= snd fr) frames -> 0 <= uProgress f <= 1 ->
  0 <= uProgress (foliageRun frames f) <= 1.
Proof.
  intros H. revert f. induction H as [|[m d] rest Hd _ IH]; intros f Hf.
  - exact Hf.
  - cbn [foliageRun]. apply IH. unfold foliageFrame. cbn [uProgress snd] in *.
    apply damp_unit; try lra. destruct (isFormed m); lra.
Qed.

Lemma pulse_unit (time pulseSpeed pulseOffset : R) :
  0 <= pulse time pulseSpeed pulseOffset <= 1.
Proof.
  unfold pulse. pose proof (SIN_bound (time * pulseSpeed + pulseOffset)). lra.
Qed.

(** X14.  The cross-fade stays in range.  Over any run of rendered frames,
    whatever the modes and however they alternate, as long as no delta is
    negative: the morph progress of an ornament and the progress of the
    foliage stay in [0, 1] once they are there (both start at 0); so the
    photo of an ornament is drawn at a scale in [0.2, 1] and an opacity in
    [0, 1], its glow at a scale in [0.01, 0.6], never 0, an opacity in
    [0, 0.85] and an emissive intensity in [0, 2]. *)
Theorem cross_fade_in_range (frames : list (SceneState * R)) :
  Forall (fun f => 0 <= snd f) frames ->
  (forall morph : R,
      0 <= morph <= 1 ->
      let m := morphRun frames morph in
      0 <= m <= 1
      /\ 0.2 <= photoScale m <= 1
      /\ 0 <= photoOpacity m <= 1
      /\ 0.01 <= glowScale m <= 0.6
      /\ 0 <= glowOpacity m <= 0.85
      /\ forall time pulseSpeed pulseOffset : R,
           0 <= glowEmissive m time pulseSpeed pulseOffset <= 2)
  /\ (forall f : FoliageMaterial,
         0 <= uProgress f <= 1 -> 0 <= uProgress (foliageRun frames f) <= 1).
Proof.
  intros H. split.
  - intros morph Hm m. pose proof (morphRun_unit frames morph H Hm) as Hr.
    fold m in Hr. unfold photoScale, photoOpacity, glowScale, glowOpacity.
    split; [exact Hr|]. split; [lra|]. split; [lra|]. split.
    + split; [apply Rmax_l|apply Rmax_lub; lra].
    + split; [lra|]. intros time ps po. unfold glowEmissive.
      pose proof (pulse_unit time ps po). nra.
  - intros f Hf. now apply foliageRun_unit.
Qed.

Lemma cross_fade_in_range_witness :
  let frames := [(FORMED, 1 / 60); (FORMED, 5); (CHAOS, 1 / 30); (FORMED, 0)] in
  0 <= morphRun frames 0 <= 1 /\ 0.01 <= glowScale (morphRun frames 0) <= 0.6.
Proof.
  intros frames.
  assert (H : Forall (fun f : SceneState * R => 0 <= snd f) frames).
  { repeat constructor; cbn; lra. }
  destruct (proj1 (cross_fade_in_range frames H) 0 ltac:(lra))
    as [H1 [_ [_ [H4 _]]]].
  split; [exact H1|exact H4].
Defined.

(** One frame and the distance to the target of the mode. *)
Lemma useFrame_to_target (c : Category) (m : SceneState) (delta : R) (o : Instance) :
  distanceTo (currentPos (useFrame c m delta o)) (target m o)
  = Rabs (1 - delta * rate c m o) * distanceTo (currentPos o) (target m o).
Proof.
  unfold useFrame, moveTo. cbn [currentPos]. apply distanceTo_lerp_to.
Qed.

Lemma distanceTo_zero (a b : Vector3) : distanceTo a b = 0 -> a = b.
Proof.
  unfold distanceTo. intros H.
  pose proof (Rle_0_sqr (x a - x b)) as Hx.
  pose proof (Rle_0_sqr (y a - y b)) as Hy.
  pose proof (Rle_0_sqr (z a - z b)) as Hz. unfold Rsqr in *.
  apply sqrt_eq_0 in H; [|lra].
  assert (x a - x b = 0) by nra. assert (y a - y b = 0) by nra.
  assert (z a - z b = 0) by nra.
  destruct a, b; cbn [x y z] in *. f_equal; lra.
Qed.

(** X15.  What one frame does to the distance.  A frame multiplies the
    distance of an instance to the target of the mode by
    |1 - delta * rate|.  With 0 <= delta * rate <= 1 the instance moves
    along the segment to the target and stops short of it or on it; with
    delta * rate = 1 it lands on the target; with delta * rate > 2 (a
    frame longer than 2 / rate seconds, as after the page was suspended)
    it is thrown past the target and ends farther from it than it was;
    an instance on its target stays there whatever the delta. *)
Theorem frame_and_distance (c : Category) (m : SceneState) (delta : R)
  (o : Instance) :
  let o' := useFrame c m delta o in
  let before := distanceTo (currentPos o) (target m o) in
  distanceTo (currentPos o') (target m o)
  = Rabs (1 - delta * rate c m o) * before
  /\ (0 <= delta * rate c m o <= 1 ->
      distanceTo (currentPos o) (currentPos o')
      + distanceTo (currentPos o') (target m o) = before)
  /\ (delta * rate c m o = 1 -> currentPos o' = target m o)
  /\ (2 < delta * rate c m o -> 0 < before ->
      before < distanceTo (currentPos o') (target m o))
  /\ (currentPos o = target m o -> currentPos o' = currentPos o).
Proof.
  intros o' before. subst o'.
  pose proof (useFrame_to_target c m delta o) as Ht. fold before in Ht.
  assert (Hb : 0 <= before) by apply distanceTo_nonneg.
  split; [exact Ht|]. split; [|split; [|split]].
  - intros [H0 H1]. rewrite Ht, distanceTo_sym.
    unfold useFrame, moveTo. cbn [currentPos]. rewrite distanceTo_lerp_from.
    fold before. rewrite !Rabs_right by lra. ring.
  - intros H1. apply distanceTo_zero. rewrite Ht, H1.
    replace (1 - 1) with 0 by ring. rewrite Rabs_R0. ring.
  - intros H2 Hpos. rewrite Ht. rewrite Rabs_left by lra. nra.
  - intros E. unfold useFrame, moveTo, lerp. cbn [currentPos]. rewrite <- E.
    destruct (currentPos o). cbn [x y z]. f_equal; ring.
Qed.

Lemma frame_and_distance_witness :
  let o := mkInstance (vec3 0 0 0) (vec3 3 0 4) (vec3 0 0 0) 1 in
  distanceTo (currentPos o) (target FORMED o)
  < distanceTo (currentPos (useFrame FairyLights FORMED 60 o)) (target FORMED o).
Proof.
  intros o.
  apply (proj1 (proj2 (proj2 (proj2
           (frame_and_distance FairyLights FORMED 60 o))))).
  - cbn. lra.
  - unfold distanceTo. cbn. apply sqrt_lt_R0. lra.
Defined.

(** Frames that do not overshoot, at a held mode: the distance to the
    target of the mode decays at least as fast as exp(- rate * time). *)
Lemma hold_decay (c : Category) (m : SceneState) (deltas : list R) (o : Instance) :
  Forall (fun d => 0 <= d /\ d * rate c m o <= 1) deltas ->
  0 <= rate c m o ->
  distanceTo (currentPos (hold c m deltas o)) (target m o)
  <= exp (- (rate c m o * elapsed deltas))
     * distanceTo (currentPos o) (target m o).
Proof.
  intros H Hr. revert o H Hr.
  induction deltas as [|d rest IH]; intros o H Hr.
  - cbn [hold elapsed fold_right]. rewrite Rmult_0_r, Ropp_0, exp_0. lra.
  - inversion H as [|d' rest' [Hd0 Hd1] Hrest]; subst.
    cbn [hold elapsed fold_right]. fold (elapsed rest).
    specialize (IH (useFrame c m d o)).
    rewrite rate_useFrame in IH.
    assert (Ht : target m (useFrame c m d o) = target m o)
      by (unfold target; destruct (isFormed m); reflexivity).
    rewrite Ht in IH. specialize (IH Hrest Hr).
    rewrite useFrame_to_target in IH.
    rewrite Rabs_right in IH by lra.
    set (r := rate c m o) in *.
    set (D := distanceTo (currentPos o) (target m o)) in *.
    assert (HD : 0 <= D) by apply distanceTo_nonneg.
    replace (- (r * (d + elapsed rest)))
      with (- (r * elapsed rest) + - (d * r)) by ring.
    rewrite exp_plus.
    pose proof (one_minus_le_exp (d * r)) as Hexp.
    pose proof (exp_pos (- (r * elapsed rest))) as Hpos.
    eapply Rle_trans; [exact IH|].
    rewrite Rmult_assoc. apply Rmult_le_compat_l; [lra|].
    apply Rmult_le_compat_r; [exact HD|exact Hexp].
Qed.

(** The rate of a generated instance, in either mode, lies in (0, 2]. *)
Lemma generated_rate (c : Category) (m : SceneState) (o : Instance) :
  generated c o -> 0 < rate c m o <= 2.
Proof.
  destruct c; cbn [generated].
  - intros [r1 [r2 [r3 [r4 [r5 [rw [_ [[H0 H1] ->]]]]]]]].
    cbn [rate Pool.ornament weight]. destruct (isFormed m); lra.
  - intros _. cbn [rate]. lra.
  - intros _. cbn [rate]. lra.
Qed.

(** X16.  Assembly and dispersal both settle at two frames a second.  For
    every instance the pool generates, in any of the three mesh
    categories, and for either mode held: if every frame lasts between 0
    and half a second, the instance comes within any eps > 0 of the
    target of the mode (targetPos for FORMED, chaosPos for CHAOS) once
    enough time has elapsed; the rate is in (0, 2] (0.5 for every
    ornament in CHAOS, between 0.64 and 1.6 in FORMED). *)
Theorem held_mode_settles (c : Category) (m : SceneState) (o : Instance)
  (eps : R) :
  generated c o -> 0 < eps ->
  0 < rate c m o <= 2
  /\ exists T : R,
       forall deltas : list R,
         Forall (fun d => 0 <= d <= 1 / 2) deltas ->
         T <= elapsed deltas ->
         distanceTo (currentPos (hold c m deltas o)) (target m o) < eps.
Proof.
  intros Hg Heps. pose proof (generated_rate c m o Hg) as Hr.
  split; [exact Hr|].
  exists (distanceTo (currentPos o) (target m o) / (eps * rate c m o)).
  intros deltas Hd Ht.
  eapply Rle_lt_trans.
  - apply hold_decay; [|lra].
    eapply Forall_impl; [|exact Hd]. cbn beta. intros d [H0 H1]. split; [lra|nra].
  - apply decay_reaches; try lra. apply distanceTo_nonneg.
Qed.

Lemma held_mode_settles_witness :
  let o := Pool.ornament (1 / 2) (1 / 4) (3 / 4) (1 / 2) 0 (1 / 2) in
  exists T : R,
    forall deltas : list R,
      Forall (fun d => 0 <= d <= 1 / 2) deltas ->
      T <= elapsed deltas ->
      distanceTo (currentPos (hold PhotoOrnaments CHAOS deltas o))
                 (target CHAOS o) < 1 / 100.
Proof.
  intros o.
  refine (proj2 (held_mode_settles PhotoOrnaments CHAOS o (1 / 100) _ _)).
  - exists (1 / 2), (1 / 4), (3 / 4), (1 / 2), 0, (1 / 2).
    unfold Pool.draw. repeat split; lra.
  - lra.
Defined.

End VisualFacts.

Section ShaderAndStar.

Import Morph Visuals.
Local Open Scope R_scope.







Lemma starFrame_uniform (state : SceneState) (delta : R) (s : Star) :
  x (scale s) = y (scale s) -> y (scale s) = z (scale s) ->
  x (scale (starFrame state delta s)) = y (scale (starFrame state delta s))
  /\ y (scale (starFrame state delta s)) = z (scale (starFrame state delta s)).
Proof.
  intros H1 H2. unfold starFrame, lerp. cbn [scale x y z].
  rewrite H1, H2. split; reflexivity.
Qed.

(** X18.  The star.  Over any run of rendered frames from a star of
    uniform scale (the group starts at (1, 1, 1)): the scale stays
    uniform; it stays in [0, 1] on each axis if it starts there and every
    delta lies in [0, 1/3]; and the star has turned by half the elapsed
    time in radians, whatever the modes. *)
Theorem star_scale_and_spin (frames : list (SceneState * R)) (s : Star) :
  x (scale s) = y (scale s) -> y (scale s) = z (scale s) ->
  let s' := starRun frames s in
  (x (scale s') = y (scale s') /\ y (scale s') = z (scale s'))
  /\ rotationY s' = rotationY s + 0.5 * elapsed (map snd frames)
  /\ (Forall (fun f => 0 <= snd f <= 1 / 3) frames ->
      0 <= x (scale s) <= 1 -> 0 <= x (scale s') <= 1).
Proof.
  revert s. induction frames as [|[m d] rest IH]; intros s H1 H2.
  - cbn. repeat split; auto; lra.
  - cbn [starRun map snd elapsed fold_right]. fold (elapsed (map snd rest)).
    destruct (starFrame_uniform m d s H1 H2) as [U1 U2].
    destruct (IH (starFrame m d s) U1 U2) as [I1 [I2 I3]].
    split; [exact I1|]. split.
    + rewrite I2. cbn [starFrame rotationY]. ring.
    + intros HF Hs. inversion HF as [|f' rest' Hd Hrest]; subst.
      cbn [snd] in Hd. apply I3; [exact Hrest|].
      unfold starFrame, lerp. cbn [scale x].
      destruct (isFormed m); nra.
Qed.

Lemma star_scale_and_spin_witness :
  let s' := starRun [(CHAOS, 1 / 60); (FORMED, 1 / 4); (CHAOS, 1 / 30)]
                    initialStar in
  (x (scale s') = y (scale s') /\ y (scale s') = z (scale s'))
  /\ rotationY s' = rotationY initialStar + 0.5 * (1 / 60 + (1 / 4 + (1 / 30 + 0)))
  /\ 0 <= x (scale s') <= 1.
Proof.
  intros s'.
  destruct (star_scale_and_spin
              [(CHAOS, 1 / 60); (FORMED, 1 / 4); (CHAOS, 1 / 30)] initialStar
              eq_refl eq_refl) as [H1 [H2 H3]].
  split; [exact H1|]. split; [exact H2|]. apply H3.
  - repeat constructor; cbn; lra.
  - cbn. lra.
Defined.

End ShaderAndStar.

(** ** Buffers and textures *)

Section BufferFacts.

Import Morph Pool Buffers.
Local Open Scope R_scope.

Lemma store_length {A} (i : nat) (v : A) (a : list A) :
  List.length (store i v a) = List.length a.
Proof.
  revert i. induction a as [|h rest IH]; intros [|j]; cbn; auto.
Qed.

Lemma store_nth {A} (i j : nat) (v d : A) (a : list A) :
  nth j (store i v a) d
  = if (Nat.eqb i j && Nat.ltb i (List.length a))%bool then v else nth j a d.
Proof.
  revert i j. induction a as [|h rest IH]; intros i j.
  - cbn [store List.length]. destruct i; cbn; rewrite ?andb_false_r; reflexivity.
  - destruct i as [|i], j as [|j]; cbn [store nth List.length]; try reflexivity.
    rewrite IH. reflexivity.
Qed.

(** What the loop from turn [i] leaves: the sizes, the entries below turn
    [i] as they were, the entries of the later turns as drawn. *)
Lemma foliageLoop_spec (sp : list R) (n : nat) (draws : list Draws) :
  forall (i : nat) (a : FoliageArrays),
    (i + List.length draws = n)%nat ->
    List.length (positions a) = (n * 3)%nat ->
    List.length (targetPositions a) = (n * 3)%nat ->
    List.length (randoms a) = n ->
    let a' := foliageLoop sp i draws a in
    List.length (positions a') = (n * 3)%nat
    /\ List.length (targetPositions a') = (n * 3)%nat
    /\ List.length (randoms a') = n
    /\ (forall j : nat, (j < i * 3)%nat ->
          nth j (positions a') 0 = nth j (positions a) 0
          /\ nth j (targetPositions a') 0 = nth j (targetPositions a) 0)
    /\ (forall j : nat, (j < i)%nat -> nth j (randoms a') 0 = nth j (randoms a) 0)
    /\ (forall j : nat, (i * 3 <= j < n * 3)%nat ->
          nth j (positions a') 0 = nth j sp 0)
    /\ (forall (q : nat) (r1 r2 r3 r4 : R),
          nth_error draws q = Some (r1, r2, r3, r4) ->
          pointAt (targetPositions a') (i + q) = getTreePosition r1 r2 r3
          /\ nth (i + q) (randoms a') 0 = r4).
Proof.
  induction draws as [|d rest IH]; intros i a Hn Hp Ht Hr a'.
  - subst a'. cbn [foliageLoop List.length] in *.
    split; [exact Hp|]. split; [exact Ht|]. split; [exact Hr|].
    split; [intros j _; split; reflexivity|].
    split; [intros j _; reflexivity|].
    split; [intros j Hj; lia|].
    intros q r1 r2 r3 r4 H. destruct q; discriminate.
  - subst a'. cbn [foliageLoop List.length] in *.
    destruct d as [[[r1 r2] r3] r4].
    set (a1 := foliageStep sp i (r1, r2, r3, r4) a).
    assert (Hp1 : List.length (positions a1) = (n * 3)%nat).
    { subst a1. cbn [foliageStep positions]. now rewrite !store_length. }
    assert (Ht1 : List.length (targetPositions a1) = (n * 3)%nat).
    { subst a1. cbn [foliageStep targetPositions]. now rewrite !store_length. }
    assert (Hr1 : List.length (randoms a1) = n).
    { subst a1. cbn [foliageStep randoms]. now rewrite !store_length. }
    destruct (IH (S i) a1 ltac:(lia) Hp1 Ht1 Hr1)
      as [L1 [L2 [L3 [Below [BelowR [Copied Drawn]]]]]].
    assert (P1 : forall j : nat,
               nth j (positions a1) 0
               = if ((i * 3 <=? j) && (j <? i * 3 + 3))%nat%bool
                 then nth j sp 0 else nth j (positions a) 0).
    { intros j. subst a1. cbn [foliageStep positions].
      rewrite !store_nth, !store_length, Hp.
      destruct (Nat.eqb_spec (i * 3 + 2) j), (Nat.eqb_spec (i * 3 + 1) j),
        (Nat.eqb_spec (i * 3) j), (Nat.ltb_spec (i * 3 + 2) (n * 3)),
        (Nat.ltb_spec (i * 3 + 1) (n * 3)), (Nat.ltb_spec (i * 3) (n * 3)),
        (Nat.leb_spec (i * 3) j), (Nat.ltb_spec j (i * 3 + 3));
        cbn [andb]; subst; try reflexivity; lia. }
    assert (T1 : forall j : nat,
               nth j (targetPositions a1) 0
               = if (j =? i * 3)%nat then x (getTreePosition r1 r2 r3)
                 else if (j =? i * 3 + 1)%nat then y (getTreePosition r1 r2 r3)
                 else if (j =? i * 3 + 2)%nat then z (getTreePosition r1 r2 r3)
                 else nth j (targetPositions a) 0).
    { intros j. subst a1. cbn [foliageStep targetPositions].
      rewrite !store_nth, !store_length, Ht.
      destruct (Nat.eqb_spec (i * 3 + 2) j), (Nat.eqb_spec (i * 3 + 1) j),
        (Nat.eqb_spec (i * 3) j), (Nat.ltb_spec (i * 3 + 2) (n * 3)),
        (Nat.ltb_spec (i * 3 + 1) (n * 3)), (Nat.ltb_spec (i * 3) (n * 3)),
        (Nat.eqb_spec j (i * 3)), (Nat.eqb_spec j (i * 3 + 1)),
        (Nat.eqb_spec j (i * 3 + 2));
        cbn [andb]; subst; try reflexivity; lia. }
    assert (R1 : forall j : nat,
               nth j (randoms a1) 0
               = if (j =? i)%nat then r4 else nth j (randoms a) 0).
    { intros j. subst a1. cbn [foliageStep randoms].
      rewrite store_nth, Hr.
      destruct (Nat.eqb_spec i j), (Nat.ltb_spec i n), (Nat.eqb_spec j i);
        cbn [andb]; subst; try reflexivity; lia. }
    split; [exact L1|]. split; [exact L2|]. split; [exact L3|].
    split; [|split; [|split]].
    + intros j Hj. destruct (Below j ltac:(lia)) as [B1 B2].
      rewrite B1, B2, P1, T1.
      destruct (Nat.leb_spec (i * 3) j); [lia|]. cbn [andb].
      destruct (Nat.eqb_spec j (i * 3)); [lia|].
      destruct (Nat.eqb_spec j (i * 3 + 1)); [lia|].
      destruct (Nat.eqb_spec j (i * 3 + 2)); [lia|]. split; reflexivity.
    + intros j Hj. rewrite (BelowR j ltac:(lia)), R1.
      destruct (Nat.eqb_spec j i); [lia|reflexivity].
    + intros j Hj. destruct (Nat.lt_ge_cases j (S i * 3)) as [Hlt|Hge].
      * destruct (Below j Hlt) as [B1 _]. rewrite B1, P1.
        destruct (Nat.leb_spec (i * 3) j); [|lia].
        destruct (Nat.ltb_spec j (i * 3 + 3)); [reflexivity|lia].
      * apply Copied. lia.
    + intros q s1 s2 s3 s4 Hq. destruct q as [|q].
      * cbn [nth_error] in Hq. injection Hq as <- <- <- <-.
        rewrite Nat.add_0_r. unfold pointAt.
        destruct (Below (i * 3)%nat ltac:(lia)) as [_ B0].
        destruct (Below (i * 3 + 1)%nat ltac:(lia)) as [_ B1].
        destruct (Below (i * 3 + 2)%nat ltac:(lia)) as [_ B2].
        rewrite B0, B1, B2, !T1, (BelowR i ltac:(lia)), R1.
        rewrite !Nat.eqb_refl.
        destruct (Nat.eqb_spec (i * 3 + 1) (i * 3)); [lia|].
        destruct (Nat.eqb_spec (i * 3 + 2) (i * 3)); [lia|].
        destruct (Nat.eqb_spec (i * 3 + 2) (i * 3 + 1)); [lia|].
        split; [|reflexivity]. now destruct (getTreePosition r1 r2 r3).
      * cbn [nth_error] in Hq.
        replace (i + S q)%nat with (S i + q)%nat by lia.
        now apply Drawn.
Qed.

(** X20.  The foliage buffers.  For a foliage of [count] points, given the
    [count * 3] coordinates of [random.inSphere] and the draws of the
    [count] turns of the loop: the three arrays keep the sizes
    count * 3, count * 3 and count; [positions] ends as a copy of the
    sphere points; and for every point i the three entries
    targetPositions[3i .. 3i+2] are the position [getTreePosition]
    computed on the draws of turn i, a point inside the cone, with
    [randoms[i]] the fourth draw of the turn. *)
Theorem foliage_buffers (count : nat) (spherePoints : list R)
  (draws : list Draws) :
  List.length spherePoints = (count * 3)%nat ->
  List.length draws = count ->
  let a := foliageArrays count spherePoints draws in
  positions a = spherePoints
  /\ List.length (targetPositions a) = (count * 3)%nat
  /\ List.length (randoms a) = count
  /\ (forall (i : nat) (r1 r2 r3 r4 : R),
         nth_error draws i = Some (r1, r2, r3, r4) ->
         pointAt (targetPositions a) i = getTreePosition r1 r2 r3
         /\ nth i (randoms a) 0 = r4
         /\ (draw r1 -> draw r2 -> draw r3 ->
             inCone (pointAt (targetPositions a) i))).
Proof.
  intros Hs Hd a. subst a. unfold foliageArrays.
  destruct (foliageLoop_spec spherePoints count draws 0
              (mkArrays (repeat 0 (count * 3)) (repeat 0 (count * 3))
                        (repeat 0 count)))
    as [L1 [L2 [L3 [_ [_ [Copied Drawn]]]]]];
    cbn [positions targetPositions randoms]; rewrite ?repeat_length; try lia.
  split; [|split; [exact L2|split; [exact L3|]]].
  - apply (nth_ext _ _ 0 0); [lia|]. intros j Hj. apply Copied. lia.
  - intros i r1 r2 r3 r4 Hi. destruct (Drawn i r1 r2 r3 r4 Hi) as [D1 D2].
    cbn [Nat.add] in D1, D2. split; [exact D1|]. split; [exact D2|].
    intros [A1 A2] [B1 B2] [C1 C2]. rewrite D1.
    unfold inCone, getTreePosition. cbn [y]. rewrite coneRadius_drawn.
    replace (TREE_radius * (1 - (r1 * TREE_height - TREE_height / 2
                                 + TREE_height / 2) / TREE_height))
      with (9 * (1 - r1)) by (unfold TREE_radius, TREE_height; field).
    rewrite radial_polar by nra. nra.
Qed.

Lemma foliage_buffers_witness :
  let a := foliageArrays 2 [1; 2; 3; 4; 5; 6]
             [(1 / 2, 0, 1 / 2, 1 / 4); (0, 1 / 4, 1 / 3, 3 / 4)] in
  positions a = [1; 2; 3; 4; 5; 6]
  /\ List.length (targetPositions a) = 6%nat
  /\ inCone (pointAt (targetPositions a) 1).
Proof.
  intros a.
  destruct (foliage_buffers 2 [1; 2; 3; 4; 5; 6]
              [(1 / 2, 0, 1 / 2, 1 / 4); (0, 1 / 4, 1 / 3, 3 / 4)]
              eq_refl eq_refl) as [H1 [H2 [_ H4]]].
  fold a in H1, H2, H4.
  split; [exact H1|]. split; [exact H2|].
  destruct (H4 1%nat 0 (1 / 4) (1 / 3) (3 / 4) eq_refl) as [_ [_ H]].
  apply H; unfold draw; lra.
Defined.

End BufferFacts.

Section TextureFacts.

Import Buffers.

Lemma shownOn_succ (n k j : nat) :
  shownOn (S n) k j
  = (shownOn n k j
     + match textureIndex k n with
       | Some t => if Nat.eqb t j then 1 else 0
       | None => 0
       end)%nat.
Proof.
  unfold shownOn, textureIndices. rewrite seq_S, map_app, filter_app, length_app.
  cbn [Nat.add seq map filter].
  destruct (textureIndex k n) as [t|]; [|reflexivity].
  destruct (Nat.eqb t j); reflexivity.
Qed.

Lemma shownOn_count (n k j : nat) :
  (0 < k)%nat -> (j < k)%nat ->
  shownOn n k j = (n / k + (if j <? n mod k then 1 else 0))%nat.
Proof.
  intros Hk Hj. induction n as [|n IH].
  - rewrite Nat.Div0.div_0_l, Nat.Div0.mod_0_l. reflexivity.
  - rewrite shownOn_succ, IH. unfold textureIndex.
    destruct (Nat.eqb_spec k 0); [lia|].
    pose proof (Nat.div_mod_eq n k) as E.
    pose proof (Nat.mod_upper_bound n k ltac:(lia)) as B.
    destruct (Nat.lt_ge_cases (S (n mod k)) k) as [Hlt|Hge].
    + assert (Q : (S n / k = n / k /\ S n mod k = S (n mod k))%nat).
      { symmetry in E.
        assert (E' : (S n = k * (n / k) + S (n mod k))%nat) by lia.
        destruct (Nat.div_mod_unique k (S n / k) (n / k) (S n mod k) (S (n mod k)));
          try lia.
        - apply Nat.mod_upper_bound. lia.
        - rewrite <- Nat.div_mod_eq. exact E'. }
      destruct Q as [-> ->].
      destruct (Nat.eqb_spec (n mod k) j), (Nat.ltb_spec j (n mod k)),
        (Nat.ltb_spec j (S (n mod k))); lia.
    + assert (Q : (S n / k = S (n / k) /\ S n mod k = 0)%nat).
      { assert (E' : (S n = k * S (n / k) + 0)%nat) by nia.
        destruct (Nat.div_mod_unique k (S n / k) (S (n / k)) (S n mod k) 0);
          try lia.
        - apply Nat.mod_upper_bound. lia.
        - rewrite <- Nat.div_mod_eq. exact E'. }
      destruct Q as [-> ->].
      destruct (Nat.eqb_spec (n mod k) j), (Nat.ltb_spec j (n mod k)),
        (Nat.ltb_spec j 0); lia.
Qed.

(** X21.  The photos are shared evenly.  With at least one texture, every
    ornament gets a texture index below the number of textures, so its
    texture exists; and each photo is shown on floor(count / textures)
    ornaments, or on one more for the first (count mod textures) photos:
    no two photos differ by more than one ornament.  With no texture at
    all, no ornament has a texture. *)
Theorem photos_shared_evenly (count textures : nat) :
  (0 < textures)%nat ->
  (forall i : nat, (i < count)%nat ->
      exists t : nat,
        nth_error (textureIndices count textures) i = Some (Some t)
        /\ (t < textures)%nat)
  /\ (forall j : nat, (j < textures)%nat ->
         shownOn count textures j
         = (count / textures
            + (if j <? count mod textures then 1 else 0))%nat)
  /\ (forall j1 j2 : nat, (j1 < textures)%nat -> (j2 < textures)%nat ->
         (shownOn count textures j1 <= shownOn count textures j2 + 1)%nat).
Proof.
  intros Hk. split; [|split].
  - intros i Hi. exists (i mod textures)%nat. split.
    + unfold textureIndices. rewrite nth_error_map, nth_error_seq.
      destruct (Nat.ltb_spec i count); [|lia]. cbn [option_map Nat.add].
      unfold textureIndex. destruct (Nat.eqb_spec textures 0); [lia|reflexivity].
    + apply Nat.mod_upper_bound. lia.
  - intros j Hj. now apply shownOn_count.
  - intros j1 j2 H1 H2. rewrite !shownOn_count by assumption.
    destruct (j1 <? count mod textures)%nat, (j2 <? count mod textures)%nat; lia.
Qed.

Lemma photos_shared_evenly_witness :
  shownOn 300 9 0 = 34%nat /\ shownOn 300 9 8 = 33%nat.
Proof.
  destruct (photos_shared_evenly 300 9 ltac:(lia)) as [_ [H _]].
  rewrite (H 0%nat ltac:(lia)), (H 8%nat ltac:(lia)).
  split; reflexivity.
Defined.

End TextureFacts.
